(** * BigQuery analysis server: the query admission pipeline

    A shallow embedding of [src/index.ts]: the statement classifier
    [containsDMLStatements] with the JavaScript string and regular
    expression operations it relies on, and the two tool handlers
    [dry_run_query] and [run_query_with_validation] over an abstract
    BigQuery client whose calls are recorded in a trace. *)

From Stdlib Require Import List NArith ZArith Bool Ascii String Lia.
From Stdlib Require DecimalString.
Import ListNotations.

Set Implicit Arguments.

(** ** JavaScript strings *)

(** A JavaScript string is a sequence of UTF-16 code units. *)
Module JS.

Local Open Scope N_scope.

Definition codeUnit := N.
Definition jsString := list codeUnit.

(** String literals of the source, written as Rocq strings. *)
Definition js (s : string) : jsString :=
  map N_of_ascii (list_ascii_of_string s).
Arguments js s%_string.

Definition inRange (lo hi c : codeUnit) : bool := (lo <=? c) && (c <=? hi).

(** LineTerminator: LF, CR, LS, PS. The regular expression atom [.] excludes
    them and, under the [m] flag, [$] matches in front of one. *)
Definition isLineTerminator (c : codeUnit) : bool :=
  (c =? 10) || (c =? 13) || (c =? 8232) || (c =? 8233).

(** WhiteSpace and LineTerminator: what [trim] removes and [\s] matches. *)
Definition isWhiteSpace (c : codeUnit) : bool :=
  inRange 9 13 c || (c =? 32) || (c =? 160) || (c =? 5760)
  || inRange 8192 8202 c || (c =? 8232) || (c =? 8233)
  || (c =? 8239) || (c =? 8287) || (c =? 12288) || (c =? 65279).

(** [\w] without the [u] flag: ASCII letters, digits and underscore. *)
Definition isWordChar (c : codeUnit) : bool :=
  inRange 65 90 c || inRange 97 122 c || inRange 48 57 c || (c =? 95).

Definition isAsciiLower (c : codeUnit) : bool := inRange 97 122 c.

(** [String.prototype.toUpperCase], one code point at a time.  ASCII letters
    are shifted; the table lists every code point outside ASCII whose full
    upper-case mapping contains an ASCII code unit (sharp s, dotless i, long
    s, the ligatures, ...).  Any other code point outside ASCII is left in
    place: the runtime maps it to itself (all white space is of that kind)
    or to code units outside ASCII that are no white space, and the
    signatures below tell code units outside ASCII apart only by whether
    they are white space. *)
Definition upperCodeUnit (c : codeUnit) : jsString :=
  if isAsciiLower c then [(c - 32)]
  else if (c =? 223) then [83; 83]          (* sharp s -> SS *)
  else if (c =? 305) then [73]              (* dotless i -> I *)
  else if (c =? 329) then [700; 78]         (* n preceded by apostrophe *)
  else if (c =? 383) then [83]              (* long s -> S *)
  else if (c =? 496) then [74; 780]         (* j with caron *)
  else if (c =? 7830) then [72; 817]        (* h with line below *)
  else if (c =? 7831) then [84; 776]        (* t with diaeresis *)
  else if (c =? 7832) then [87; 778]        (* w with ring above *)
  else if (c =? 7833) then [89; 778]        (* y with ring above *)
  else if (c =? 7834) then [65; 702]        (* a with right half ring *)
  else if (c =? 64256) then [70; 70]        (* ligature ff *)
  else if (c =? 64257) then [70; 73]        (* ligature fi *)
  else if (c =? 64258) then [70; 76]        (* ligature fl *)
  else if (c =? 64259) then [70; 70; 73]    (* ligature ffi *)
  else if (c =? 64260) then [70; 70; 76]    (* ligature ffl *)
  else if (c =? 64261) then [83; 84]        (* ligature long s t *)
  else if (c =? 64262) then [83; 84]        (* ligature st *)
  else [c].

Definition toUpperCase (s : jsString) : jsString := flat_map upperCodeUnit s.

Fixpoint trimStart (s : jsString) : jsString :=
  match s with
  | c :: r => if isWhiteSpace c then trimStart r else s
  | [] => []
  end.

Definition trimEnd (s : jsString) : jsString := rev (trimStart (rev s)).

Definition trim (s : jsString) : jsString := trimEnd (trimStart s).

(** [s.replace(re, '')] for a global [re]: the code units covered by a match
    are deleted, the others are kept in order.  [marks] tells, unit by unit,
    whether a match covers it. *)
Fixpoint deleteMatches (s : jsString) (marks : list bool) : jsString :=
  match s, marks with
  | c :: r, m :: ms => if m then deleteMatches r ms else c :: deleteMatches r ms
  | _, _ => s
  end.

(** Matches of [/--.*$/gm]: two hyphens and the longest run of code units
    that are not line terminators ([.*] is greedy and [$] holds where the
    run stops: at the end of the input or in front of a line terminator).
    The line terminator itself is not part of the match. *)
Fixpoint lineCommentMarks (inside : bool) (s : jsString) : list bool :=
  match s with
  | [] => []
  | a :: r =>
      if inside then
        if isLineTerminator a then false :: lineCommentMarks false r
        else true :: lineCommentMarks true r
      else
        match r with
        | b :: _ =>
            if (a =? 45) && (b =? 45) then true :: lineCommentMarks true r
            else false :: lineCommentMarks false r
        | [] => [false]
        end
  end.

(** Does [*/] occur in [s]? *)
Fixpoint closes (s : jsString) : bool :=
  match s with
  | a :: r =>
      match r with
      | b :: _ => ((a =? 42) && (b =? 47)) || closes r
      | [] => false
      end
  | [] => false
  end.

(** Matches of [/\/\*[\s\S]*?\*\//g]: a slash and a star, then everything up
    to and including the first star-slash that follows them ([*?] is lazy).
    Where no star-slash follows, the expression does not match at that slash
    and the search goes on at the next code unit. *)
Fixpoint blockCommentMarks (inside : bool) (s : jsString) : list bool :=
  match s with
  | [] => []
  | a :: r =>
      if inside then
        match r with
        | b :: r' =>
            if (a =? 42) && (b =? 47)
            then true :: true :: blockCommentMarks false r'
            else true :: blockCommentMarks true r
        | [] => [true]
        end
      else
        match r with
        | b :: r' =>
            if (a =? 47) && (b =? 42) && closes r'
            then true :: true :: blockCommentMarks true r'
            else false :: blockCommentMarks false r
        | [] => [false]
        end
  end.

Definition removeLineComments (s : jsString) : jsString :=
  deleteMatches s (lineCommentMarks false s).

Definition removeBlockComments (s : jsString) : jsString :=
  deleteMatches s (blockCommentMarks false s).

End JS.
Export JS.

(** ** Regular expressions of the classifier *)

(** The signatures of the catalog are sequences of literal characters,
    [\s+] and [\b], all under the [i] flag. *)
Module RegExp.

Local Open Scope N_scope.

Inductive atom :=
| Chr (c : codeUnit)     (* a literal character *)
| Spaces                 (* \s+ *)
| WordBoundary.          (* \b *)

(** Canonicalize of the [i] flag without [u]: an ASCII letter folds to its
    upper case.  A code unit outside ASCII never folds into ASCII, so it
    equals no character of a signature; it is left in place. *)
Definition canonicalize (c : codeUnit) : codeUnit :=
  if isAsciiLower c then (c - 32) else c.

Definition sameChar (x c : codeUnit) : bool :=
  (canonicalize x =? canonicalize c).

Definition isWordAt (c : option codeUnit) : bool :=
  match c with Some x => isWordChar x | None => false end.

(** [\b] holds between [prev] and [next] when exactly one of them is a word
    character; beyond either end of the input there is none. *)
Definition atBoundary (prev next : option codeUnit) : bool :=
  xorb (isWordAt prev) (isWordAt next).

(** The backtracking matcher: [matchAt p prev s] matches [p] at the front of
    [s], [prev] being the code unit in front of it, and gives the number of
    code units the match consumes.  [\s+] first takes as much white space as
    it can and gives it back unit by unit. *)
Fixpoint matchAt (p : list atom) : option codeUnit -> jsString -> option nat :=
  match p with
  | [] => fun _ _ => Some 0%nat
  | a :: rest =>
      match a with
      | WordBoundary => fun prev s =>
          if atBoundary prev (hd_error s) then matchAt rest prev s else None
      | Chr c => fun _ s =>
          match s with
          | x :: s' =>
              if sameChar x c then option_map S (matchAt rest (Some x) s')
              else None
          | [] => None
          end
      | Spaces =>
          fix spaces (prev : option codeUnit) (s : jsString) : option nat :=
            match s with
            | x :: s' =>
                if isWhiteSpace x then
                  match spaces (Some x) s' with
                  | Some n => Some (S n)
                  | None => option_map S (matchAt rest (Some x) s')
                  end
                else None
            | [] => None
            end
      end
  end.

(** The search of [exec]: the first start index, from the front of the
    input, at which the pattern matches. *)
Fixpoint searchFrom (p : list atom) (prev : option codeUnit) (s : jsString)
  : bool :=
  match matchAt p prev s with
  | Some _ => true
  | None =>
      match s with
      | x :: s' => searchFrom p (Some x) s'
      | [] => false
      end
  end.

(** [re.test(s)] for an expression without the [g] flag. *)
Definition test (p : list atom) (s : jsString) : bool := searchFrom p None s.

Definition literal (w : string) : list atom := map Chr (js w).
Arguments literal w%_string.

Fixpoint spaced (ws : list string) : list atom :=
  match ws with
  | [] => []
  | [w] => literal w
  | w :: r => literal w ++ Spaces :: spaced r
  end.

(** [/\bW1\s+W2 ... \s+Wk\b/i] *)
Definition words (ws : list string) : list atom :=
  WordBoundary :: spaced ws ++ [WordBoundary].

End RegExp.
Export RegExp.

(** ** The statement classifier *)

(** Size limit for queries (1 TB in bytes). *)
Definition SIZE_LIMIT_BYTES : Z := 1099511627776.

Record Signature := { pattern : list atom; name : string }.

Record DMLCheck := { isDML : bool; message : option jsString }.

(** The query without its comments, trimmed and in upper case. *)
Definition normalizedQuery (query : jsString) : jsString :=
  toUpperCase (trim (removeBlockComments (removeLineComments query))).

Definition dmlPatterns : list Signature :=
  [ {| pattern := words ["CREATE"; "TABLE"]; name := "CREATE TABLE" |};
    {| pattern := words ["CREATE"; "OR"; "REPLACE"; "TABLE"];
       name := "CREATE OR REPLACE TABLE" |};
    {| pattern := words ["DROP"; "TABLE"]; name := "DROP TABLE" |};
    {| pattern := words ["ALTER"; "TABLE"]; name := "ALTER TABLE" |};
    {| pattern := words ["INSERT"; "INTO"]; name := "INSERT INTO" |};
    {| pattern := words ["UPDATE"]; name := "UPDATE" |};
    {| pattern := words ["DELETE"; "FROM"]; name := "DELETE FROM" |};
    {| pattern := words ["MERGE"; "INTO"]; name := "MERGE INTO" |};
    {| pattern := words ["TRUNCATE"; "TABLE"]; name := "TRUNCATE TABLE" |};
    {| pattern := words ["CREATE"; "VIEW"]; name := "CREATE VIEW" |};
    {| pattern := words ["CREATE"; "OR"; "REPLACE"; "VIEW"];
       name := "CREATE OR REPLACE VIEW" |};
    {| pattern := words ["DROP"; "VIEW"]; name := "DROP VIEW" |};
    {| pattern := words ["CREATE"; "FUNCTION"]; name := "CREATE FUNCTION" |};
    {| pattern := words ["DROP"; "FUNCTION"]; name := "DROP FUNCTION" |};
    {| pattern := words ["CREATE"; "PROCEDURE"]; name := "CREATE PROCEDURE" |};
    {| pattern := words ["DROP"; "PROCEDURE"]; name := "DROP PROCEDURE" |};
    {| pattern := words ["GRANT"]; name := "GRANT" |};
    {| pattern := words ["REVOKE"]; name := "REVOKE" |};
    {| pattern := words ["BEGIN"; "TRANSACTION"]; name := "BEGIN TRANSACTION" |};
    {| pattern := words ["COMMIT"]; name := "COMMIT" |};
    {| pattern := words ["ROLLBACK"]; name := "ROLLBACK" |} ]%string.

(** The loop over the catalog: the first signature that matches. *)
Fixpoint firstMatch (ps : list Signature) (text : jsString)
  : option Signature :=
  match ps with
  | [] => None
  | p :: rest => if test (pattern p) text then Some p else firstMatch rest text
  end.

Definition dmlMessage (n : string) : jsString :=
  js "DML statement detected: " ++ js n
  ++ js ". Only SELECT queries are allowed.".

Definition detected (n : string) : DMLCheck :=
  {| isDML := true; message := Some (dmlMessage n) |}.

Definition notDetected : DMLCheck := {| isDML := false; message := None |}.

Definition containsDMLStatements (query : jsString) : DMLCheck :=
  match firstMatch dmlPatterns (normalizedQuery query) with
  | Some p => detected (name p)
  | None => notDetected
  end.

(** ** Where the comments of a query are *)

(** The classifier deletes comments in two passes, the second over the output
    of the first.  [commentMarks] carries both back to the query as it was
    received: a code unit of the query is inside a comment when the first
    pass deletes it, or when it survives the first pass and the second one
    deletes it. *)
Fixpoint mergeMarks (first second : list bool) : list bool :=
  match first with
  | [] => []
  | true :: r => true :: mergeMarks r second
  | false :: r =>
      match second with
      | m :: ms => m :: mergeMarks r ms
      | [] => false :: mergeMarks r []
      end
  end.

Definition commentMarks (query : jsString) : list bool :=
  mergeMarks (lineCommentMarks false query)
             (blockCommentMarks false (removeLineComments query)).

(** Every match of a pattern in a text, as (start index, length). *)
Fixpoint occurrencesFrom (p : list atom) (prev : option codeUnit)
    (s : jsString) (i : nat) : list (nat * nat) :=
  match matchAt p prev s with Some n => [(i, n)] | None => [] end
  ++ match s with
     | x :: s' => occurrencesFrom p (Some x) s' (S i)
     | [] => []
     end.

Definition occurrences (p : list atom) (s : jsString) : list (nat * nat) :=
  occurrencesFrom p None s 0.

Definition covered (marks : list bool) (o : nat * nat) : list bool :=
  firstn (snd o) (skipn (fst o) marks).

(** A case-insensitive whole-word occurrence of the signature in the query
    as received, none of whose code units is inside a comment. *)
Definition occursOutsideComments (p : list atom) (query : jsString) : bool :=
  existsb (fun o => forallb negb (covered (commentMarks query) o))
          (occurrences p query).

(** Every such occurrence in the query as received lies inside a comment. *)
Definition occursOnlyInComments (p : list atom) (query : jsString) : bool :=
  forallb (fun o => forallb (fun m => m) (covered (commentMarks query) o))
          (occurrences p query).

(** ** The tool handlers *)

(** A value thrown by the BigQuery client: an [Error] with its message, or
    any other value with what [String] makes of it. *)
Inductive Thrown :=
| ErrorObject (msg : jsString)
| OtherValue (asString : jsString).

(** [error instanceof Error ? error.message : String(error)] *)
Definition errorText (error : Thrown) : jsString :=
  match error with
  | ErrorObject msg => msg
  | OtherValue asString => asString
  end.

(** The statistics of a job.  The service reports the byte count as a decimal
    string; the model carries the integer that string denotes, which is what
    [BigInt] makes of it. *)
Record Statistics := { totalBytesProcessed : Z }.
Record Metadata := { statistics : Statistics }.
Record Job := { metadata : Metadata }.

Inductive Value :=
| VNull
| VBool (b : bool)
| VNumber (n : Z)
| VString (s : jsString).

Definition Row := list (jsString * Value).

(** [{ query, dryRun: true, ...(projectId && { projectId }) }] *)
Record JobOptions := {
  job_query : jsString;
  job_dryRun : bool;
  job_projectId : option jsString
}.

(** [{ query, ...(projectId && { projectId }), maxResults }] *)
Record QueryOptions := {
  run_query : jsString;
  run_projectId : option jsString;
  run_maxResults : Z
}.

(** What a handler does to the outside: the calls on the BigQuery client and
    the lines it writes to the error console, in order. *)
Inductive Event :=
| CreateQueryJob (options : JobOptions)
| Query (options : QueryOptions)
| ConsoleError (label : jsString) (error : Thrown).

(** The BigQuery client.  An answer may depend on everything that happened
    before the call. *)
Record BigQuery := {
  createQueryJob : list Event -> JobOptions -> Thrown + Job;
  query : list Event -> QueryOptions -> Thrown + list Row
}.

Definition isCall (e : Event) : bool :=
  match e with ConsoleError _ _ => false | _ => true end.

Definition isQuery (e : Event) : bool :=
  match e with Query _ => true | _ => false end.

Definition isCreateQueryJob (e : Event) : bool :=
  match e with CreateQueryJob _ => true | _ => false end.

(** Number of calls made on the BigQuery client. *)
Definition externalCalls (trace : list Event) : nat :=
  List.length (filter isCall trace).

(** Computations of a handler body: they may throw, and they add to the
    events of the request.  [history] holds what happened before the
    request; the client sees it together with the events of the request. *)
Module Eff.

Definition t (A : Type) : Type := list Event -> (Thrown + A) * list Event.

Definition ret {A} (a : A) : t A := fun tr => (inr a, tr).

Definition bind {A B} (m : t A) (k : A -> t B) : t B :=
  fun tr =>
    match m tr with
    | (inr a, tr') => k a tr'
    | (inl e, tr') => (inl e, tr')
    end.

(** [try { body } catch (error) { handler }] *)
Definition tryCatch {A} (body : t A) (handler : Thrown -> t A) : t A :=
  fun tr =>
    match body tr with
    | (inr a, tr') => (inr a, tr')
    | (inl e, tr') => handler e tr'
    end.

(** [await bigquery.createQueryJob(options)] *)
Definition awaitCreateQueryJob (bigquery : BigQuery) (history : list Event)
    (options : JobOptions) : t Job :=
  fun tr =>
    (createQueryJob bigquery (history ++ tr) options,
     tr ++ [CreateQueryJob options]).

(** [await bigquery.query(options)] *)
Definition awaitQuery (bigquery : BigQuery) (history : list Event)
    (options : QueryOptions) : t (list Row) :=
  fun tr =>
    (query bigquery (history ++ tr) options, tr ++ [Query options]).

Definition consoleError (label : jsString) (error : Thrown) : t unit :=
  fun tr => (inr tt, tr ++ [ConsoleError label error]).

End Eff.

Notation "x <- m ;; k" := (Eff.bind m (fun x => k))
  (at level 61, m at next level, right associativity).

(** Text with numbers rendered by [toFixed].  The rendering goes through
    [Number], that is through floating point, and is kept as a piece that
    names the byte count and the unit, not evaluated. *)
Inductive Piece :=
| Lit (s : jsString)
| GigabytesFixed2 (bytes : Z)     (* (Number(bytes) / 1024^3).toFixed(2) *)
| TerabytesFixed4 (bytes : Z).    (* (Number(bytes) / 1024^4).toFixed(4) *)

Definition Text := list Piece.

Definition plain (s : jsString) : Text := [Lit s].

(** The object handed to [JSON.stringify], one constructor per shape the
    handlers build.  A field whose value is [undefined] is left out by
    [JSON.stringify]: [None]. *)
Inductive Payload :=
| DryRunReport (bytesProcessed : Z) (formattedSize : Text)
    (isBelowLimit : bool) (message : Text)            (* success: true *)
| Failure (error : option Text)                       (* success: false *)
| SizeExceeded (bytesProcessed : Z) (formattedSize : Text)
    (error : Text)                                    (* success: false *)
| Executed (bytesProcessed : Z) (formattedSize : Text)
    (rowCount : nat) (results : list Row).            (* success: true *)

Definition success (p : Payload) : bool :=
  match p with
  | DryRunReport _ _ _ _ | Executed _ _ _ _ => true
  | Failure _ | SizeExceeded _ _ _ => false
  end.

Inductive ErrorCode := InvalidParams.

(** How a tool call ends: the handler returns a payload; or it throws an
    [McpError], which the transport reports as a protocol error; or a value
    thrown by the client leaves the handler uncaught. *)
Inductive Outcome :=
| Returned (p : Payload)
| McpError (code : ErrorCode) (msg : jsString)
| Uncaught (error : Thrown).

(** [...(projectId && { projectId })]: the field is set only for a project
    id that is given and not the empty string. *)
Definition spreadProjectId (projectId : option jsString) : option jsString :=
  match projectId with
  | Some (c :: r) => Some (c :: r)
  | _ => None
  end.

(** [!query] for a string. *)
Definition isEmpty (s : jsString) : bool :=
  match s with [] => true | _ => false end.

(** [BigInt(totalBytesProcessed) < BigInt(SIZE_LIMIT_BYTES)] *)
Definition belowLimit (totalBytes : Z) : bool :=
  (totalBytes <? SIZE_LIMIT_BYTES)%Z.

(** The [catch] block of both handlers. *)
Definition catchBlock (label : jsString) (error : Thrown) : Eff.t Payload :=
  _ <- Eff.consoleError label error ;;
  Eff.ret (Failure (Some (plain (errorText error)))).

(** Running a handler body: how the call ends and the events it caused. *)
Definition complete (body : Eff.t Payload) : Outcome * list Event :=
  match body [] with
  | (inr p, tr) => (Returned p, tr)
  | (inl e, tr) => (Uncaught e, tr)
  end.

Definition dryRunOptions (query : jsString) (projectId : option jsString)
  : JobOptions :=
  {| job_query := query; job_dryRun := true;
     job_projectId := spreadProjectId projectId |}.

Definition runOptions (query : jsString) (projectId : option jsString)
    (maxResults : Z) : QueryOptions :=
  {| run_query := query; run_projectId := spreadProjectId projectId;
     run_maxResults := maxResults |}.

(** Tool: perform a dry run of a BigQuery query.  The result is how the call
    ends and the events it caused, in order. *)
Definition dry_run_query (bigquery : BigQuery) (query : jsString)
    (projectId : option jsString) (history : list Event)
  : Outcome * list Event :=
  if isEmpty query then
    (McpError InvalidParams (js "Query is required"), [])
  else
    complete
      (Eff.tryCatch
         (let options := dryRunOptions query projectId in
          job <- Eff.awaitCreateQueryJob bigquery history options ;;
          let bytes := totalBytesProcessed (statistics (metadata job)) in
          let below := belowLimit bytes in
          Eff.ret
            (DryRunReport bytes
               [GigabytesFixed2 bytes; Lit (js " GB (");
                TerabytesFixed4 bytes; Lit (js " TB)")]
               below
               (if below then
                  [Lit (js "Dry run successful. Query will process ");
                   GigabytesFixed2 bytes;
                   Lit (js " GB, which is below the 1 TB limit.")]
                else
                  [Lit (js "Dry run successful, but query will process ");
                   GigabytesFixed2 bytes;
                   Lit (js " GB, which exceeds the 1 TB limit.")])))
         (catchBlock (js "Dry run error:"))).

(** The default parameter [maxResults = 100]. *)
Definition rowCap (maxResults : option Z) : Z :=
  match maxResults with Some n => n | None => 100%Z end.

(** Tool: run a BigQuery query with validation. *)
Definition run_query_with_validation (bigquery : BigQuery) (query : jsString)
    (projectId : option jsString) (maxResults : option Z)
    (history : list Event) : Outcome * list Event :=
  let maxResults := rowCap maxResults in
  if isEmpty query then
    (McpError InvalidParams (js "Query is required"), [])
  else
    let dmlCheck := containsDMLStatements query in
    if isDML dmlCheck then
      (Returned (Failure (option_map plain (message dmlCheck))), [])
    else
      complete
        (Eff.tryCatch
           (let options := dryRunOptions query projectId in
            job <- Eff.awaitCreateQueryJob bigquery history options ;;
            let bytes := totalBytesProcessed (statistics (metadata job)) in
            let below := belowLimit bytes in
            if negb below then
              Eff.ret
                (SizeExceeded bytes
                   [GigabytesFixed2 bytes; Lit (js " GB")]
                   [Lit (js "Query would process "); GigabytesFixed2 bytes;
                    Lit (js " GB, which exceeds the 1 TB limit.")])
            else
              rows <- Eff.awaitQuery bigquery history
                        (runOptions query projectId maxResults) ;;
              Eff.ret
                (Executed bytes [GigabytesFixed2 bytes; Lit (js " GB")]
                   (List.length rows) rows))
           (catchBlock (js "Query error:"))).

(** ** Vocabulary of the properties *)

(** The catalog as data: the words of each signature and its label. *)
Definition catalog : list (list string * string) :=
  [ (["CREATE"; "TABLE"], "CREATE TABLE");
    (["CREATE"; "OR"; "REPLACE"; "TABLE"], "CREATE OR REPLACE TABLE");
    (["DROP"; "TABLE"], "DROP TABLE");
    (["ALTER"; "TABLE"], "ALTER TABLE");
    (["INSERT"; "INTO"], "INSERT INTO");
    (["UPDATE"], "UPDATE");
    (["DELETE"; "FROM"], "DELETE FROM");
    (["MERGE"; "INTO"], "MERGE INTO");
    (["TRUNCATE"; "TABLE"], "TRUNCATE TABLE");
    (["CREATE"; "VIEW"], "CREATE VIEW");
    (["CREATE"; "OR"; "REPLACE"; "VIEW"], "CREATE OR REPLACE VIEW");
    (["DROP"; "VIEW"], "DROP VIEW");
    (["CREATE"; "FUNCTION"], "CREATE FUNCTION");
    (["DROP"; "FUNCTION"], "DROP FUNCTION");
    (["CREATE"; "PROCEDURE"], "CREATE PROCEDURE");
    (["DROP"; "PROCEDURE"], "DROP PROCEDURE");
    (["GRANT"], "GRANT");
    (["REVOKE"], "REVOKE");
    (["BEGIN"; "TRANSACTION"], "BEGIN TRANSACTION");
    (["COMMIT"], "COMMIT");
    (["ROLLBACK"], "ROLLBACK") ]%string.

Definition signatureOf (e : list string * string) : Signature :=
  {| pattern := words (fst e); name := snd e |}.

(** The nineteen constructs the specification lists for the classifier. *)
Definition listedConstructs : list (list string * string) :=
  [ (["INSERT"; "INTO"], "INSERT INTO");
    (["UPDATE"], "UPDATE");
    (["DELETE"; "FROM"], "DELETE FROM");
    (["CREATE"; "TABLE"], "CREATE TABLE");
    (["DROP"; "TABLE"], "DROP TABLE");
    (["ALTER"; "TABLE"], "ALTER TABLE");
    (["MERGE"; "INTO"], "MERGE INTO");
    (["TRUNCATE"; "TABLE"], "TRUNCATE TABLE");
    (["CREATE"; "VIEW"], "CREATE VIEW");
    (["DROP"; "VIEW"], "DROP VIEW");
    (["CREATE"; "FUNCTION"], "CREATE FUNCTION");
    (["DROP"; "FUNCTION"], "DROP FUNCTION");
    (["CREATE"; "PROCEDURE"], "CREATE PROCEDURE");
    (["DROP"; "PROCEDURE"], "DROP PROCEDURE");
    (["GRANT"], "GRANT");
    (["REVOKE"], "REVOKE");
    (["BEGIN"; "TRANSACTION"], "BEGIN TRANSACTION");
    (["COMMIT"], "COMMIT");
    (["ROLLBACK"], "ROLLBACK") ]%string.

(** The code unit in front of the position reached after reading [l], when
    [prev] was in front of [l]. *)
Definition lastOpt (prev : option codeUnit) (l : jsString) : option codeUnit :=
  fold_left (fun _ x => Some x) l prev.

(** [b] spells [w], letter case aside. *)
Definition SameText (b w : jsString) : Prop :=
  Forall2 (fun x c => sameChar x c = true) b w.

Definition WhiteSpaceRun (sp : jsString) : Prop :=
  sp <> [] /\ Forall (fun x => isWhiteSpace x = true) sp.

(** [body] spells the words [ws] in order, letter case aside, with one or
    more white space characters between two of them. *)
Inductive Shaped : list string -> jsString -> Prop :=
| Shaped_nil : Shaped [] []
| Shaped_last w b : SameText b (js w) -> Shaped [w] b
| Shaped_cons w w' ws b sp rest :
    SameText b (js w) -> WhiteSpaceRun sp -> Shaped (w' :: ws) rest ->
    Shaped (w :: w' :: ws) (b ++ sp ++ rest).

(** A whole-word occurrence of the words [ws] in [text]: the words, with no
    word character next to them on either side. *)
Definition WholeWordOccurrence (ws : list string) (text : jsString) : Prop :=
  exists pre body post,
    text = pre ++ body ++ post /\ Shaped ws body
    /\ isWordAt (lastOpt None pre) = false
    /\ isWordAt (hd_error post) = false.

(** Every word is made of word characters and there is at least one. *)
Definition wordsOnly (ws : list string) : bool :=
  match ws with [] => false | _ => true end
  && forallb (fun w => negb (isEmpty (js w)) && forallb isWordChar (js w)) ws.

(** The byte count a dry-run job reports. *)
Definition bytesOf (job : Job) : Z :=
  totalBytesProcessed (statistics (metadata job)).


(** Clients with fixed answers, for concrete runs. *)
Definition jobOf (bytes : Z) : Job :=
  {| metadata := {| statistics := {| totalBytesProcessed := bytes |} |} |}.

Definition steadyClient (bytes : Z) (rows : list Row) : BigQuery :=
  {| createQueryJob := fun _ _ => inr (jobOf bytes);
     query := fun _ _ => inr rows |}.

Definition brokenClient (error : Thrown) : BigQuery :=
  {| createQueryJob := fun _ _ => inl error;
     query := fun _ _ => inl error |}.

Definition estimateOnlyClient (bytes : Z) (error : Thrown) : BigQuery :=
  {| createQueryJob := fun _ _ => inr (jobOf bytes);
     query := fun _ _ => inl error |}.

(** Pieces of the queries of the repository's tests that no Rocq string
    literal holds: the line feed, the double quote, and the Japanese text
    of the comment in the last test of the classifier. *)
Definition lf : jsString := [10%N].
Definition dquote : jsString := [34%N].
Definition kokoniwa : jsString := [12371; 12371; 12395; 12399]%N.
Definition gaarimasu : jsString := [12364; 12354; 12426; 12414; 12377]%N.

Definition twoRows : list Row :=
  [ [(js "id", VNumber 1); (js "name", VString (js "John"))];
    [(js "id", VNumber 2); (js "name", VString (js "Jane"))] ].

(** The pattern [p] matches at the front of [s], [prev] in front of it. *)
Definition Accepts (p : list atom) (prev : option codeUnit) (s : jsString)
  : Prop :=
  exists n, matchAt p prev s = Some n.

(** ** Further vocabulary *)

Definition isAscii (c : codeUnit) : bool := (c <? 128)%N.

(** Do two hyphens in a row occur in [s]? *)
Fixpoint hasDoubleHyphen (s : jsString) : bool :=
  match s with
  | a :: r =>
      match r with
      | b :: _ => ((a =? 45)%N && (b =? 45)%N) || hasDoubleHyphen r
      | [] => false
      end
  | [] => false
  end.

(** The copy of the classifier in [test/tools.test.ts]: the same
    normalization and loop over a catalog of four signatures. *)
Definition toolsTestPatterns : list Signature :=
  [ {| pattern := words ["CREATE"; "TABLE"]; name := "CREATE TABLE" |};
    {| pattern := words ["INSERT"; "INTO"]; name := "INSERT INTO" |};
    {| pattern := words ["UPDATE"]; name := "UPDATE" |};
    {| pattern := words ["DELETE"; "FROM"]; name := "DELETE FROM" |} ]%string.

Definition toolsTestContainsDMLStatements (query : jsString) : DMLCheck :=
  match firstMatch toolsTestPatterns (normalizedQuery query) with
  | Some p => detected (name p)
  | None => notDetected
  end.

(** The two deletions as scans: what is left of [s] when the scan starts
    inside a comment or outside of one. *)
Definition scanLine (inside : bool) (s : jsString) : jsString :=
  deleteMatches s (lineCommentMarks inside s).

Definition scanBlock (inside : bool) (s : jsString) : jsString :=
  deleteMatches s (blockCommentMarks inside s).

Definition threeRows : list Row :=
  [ [(js "n", VNumber 1)]; [(js "n", VNumber 2)]; [(js "n", VNumber 3)] ].

(** ** The size figures of the payloads *)

(** [Number(totalBytesProcessed)] for the decimal string of a natural number
    [n]: the double nearest to [n], ties to even.  Every natural number
    below 2^53 is a double; above, [n] is rounded to 53 significant bits.
    The counts of the service are 64-bit integers, far from the overflow of
    doubles. *)
Definition toNumber (n : Z) : Z :=
  if (n <? 2 ^ 53)%Z then n
  else
    let e := (Z.log2 n - 52)%Z in
    let q := (n / 2 ^ e)%Z in
    let r := (n mod 2 ^ e)%Z in
    let half := (2 ^ (e - 1))%Z in
    if (r <? half)%Z then (q * 2 ^ e)%Z
    else if (half <? r)%Z then ((q + 1) * 2 ^ e)%Z
    else if Z.even q then (q * 2 ^ e)%Z else ((q + 1) * 2 ^ e)%Z.

(** [x.toFixed(f)] takes the integer [n] for which [n / 10^f] is nearest to
    [x], the larger one when two are as near.  For [x = m / 2^k] with [m]
    not negative: *)
Definition fixedUnits (f m k : Z) : Z :=
  ((2 * m * 10 ^ f + 2 ^ k) / 2 ^ (k + 1))%Z.

Definition decimal (n : Z) : jsString :=
  js (DecimalString.NilZero.string_of_uint (N.to_uint (Z.to_N n))).

Definition padLeft (width : nat) (s : jsString) : jsString :=
  repeat 48%N (width - List.length s) ++ s.

(** The digits of [toFixed]: the integer part, a point, and [f] digits, for
    [f] at least 1 and for values below 10^21, where [toFixed] does not
    switch to the exponent notation. *)
Definition toFixed (f m k : Z) : jsString :=
  let n := fixedUnits f m k in
  decimal (n / 10 ^ f) ++ [46%N]
  ++ padLeft (Z.to_nat f) (decimal (n mod 10 ^ f)).

(** [toFixed] of a negative number is that of its opposite behind a minus
    sign. *)
Definition signed (bytes : Z) (digits : jsString) : jsString :=
  if (bytes <? 0)%Z then 45%N :: digits else digits.

(** [sizeInGB = Number(totalBytesProcessed) / (1024 * 1024 * 1024)] and
    [sizeInTB = sizeInGB / 1024]: divisions of a double by a power of two,
    which are exact. *)
Definition renderPiece (p : Piece) : jsString :=
  match p with
  | Lit s => s
  | GigabytesFixed2 bytes =>
      signed bytes (toFixed 2 (toNumber (Z.abs bytes)) 30)
  | TerabytesFixed4 bytes =>
      signed bytes (toFixed 4 (toNumber (Z.abs bytes)) 40)
  end.

(** The template literal: its pieces one after the other. *)
Definition renderText (t : Text) : jsString := flat_map renderPiece t.

(** ** The matcher against the declarative reading of a signature *)

Section Matcher.

Lemma lastOpt_app prev a b :
  lastOpt prev (a ++ b) = lastOpt (lastOpt prev a) b.
Proof. unfold lastOpt. apply fold_left_app. Qed.

Lemma lastOpt_cons prev x l : lastOpt prev (x :: l) = lastOpt (Some x) l.
Proof. reflexivity. Qed.

Lemma accepts_nil prev s : Accepts [] prev s.
Proof. exists 0%nat. reflexivity. Qed.

Lemma accepts_chr c k prev s :
  Accepts (Chr c :: k) prev s <->
  exists x s', s = x :: s' /\ sameChar x c = true /\ Accepts k (Some x) s'.
Proof.
  unfold Accepts. simpl. split.
  - intros [n H]. destruct s as [|x s']; [discriminate|].
    destruct (sameChar x c) eqn:E; [|discriminate].
    destruct (matchAt k (Some x) s') as [m|] eqn:M; [|discriminate].
    exists x, s'. repeat split; eauto.
  - intros (x & s' & -> & E & m & M). rewrite E, M. simpl. eauto.
Qed.

Lemma accepts_boundary k prev s :
  Accepts (WordBoundary :: k) prev s <->
  atBoundary prev (hd_error s) = true /\ Accepts k prev s.
Proof.
  unfold Accepts. simpl. split.
  - intros [n H]. destruct (atBoundary prev (hd_error s)); [|discriminate].
    split; eauto.
  - intros [E [n H]]. rewrite E. eauto.
Qed.

Lemma accepts_spaces_step k prev s :
  Accepts (Spaces :: k) prev s <->
  exists x s', s = x :: s' /\ isWhiteSpace x = true
    /\ (Accepts (Spaces :: k) (Some x) s' \/ Accepts k (Some x) s').
Proof.
  unfold Accepts. split.
  - intros [n H]. destruct s as [|x s']; [discriminate|]. simpl in H.
    destruct (isWhiteSpace x) eqn:E; [|discriminate].
    exists x, s'. repeat split; auto.
    match type of H with
    | match ?m with _ => _ end = _ => destruct m as [j|] eqn:J
    end.
    + left. exists j. exact J.
    + right. destruct (matchAt k (Some x) s') as [m|]; [eauto|discriminate].
  - intros (x & s' & -> & E & [[j J]|[m M]]).
    + simpl. rewrite E. simpl in J. rewrite J. eauto.
    + simpl. rewrite E.
      match goal with
      | |- exists n, match ?m with _ => _ end = _ => destruct m as [j|]
      end; [eauto|]. rewrite M. simpl. eauto.
Qed.

Lemma accepts_spaces k prev s :
  Accepts (Spaces :: k) prev s <->
  exists sp s', s = sp ++ s' /\ WhiteSpaceRun sp
    /\ Accepts k (lastOpt prev sp) s'.
Proof.
  split.
  - revert prev. induction s as [|x s IH]; intros prev H.
    + apply accepts_spaces_step in H. destruct H as (? & ? & ? & _).
      discriminate.
    + apply accepts_spaces_step in H.
      destruct H as (y & s' & E & W & H). injection E as <- <-.
      destruct H as [H|H].
      * apply IH in H. destruct H as (sp & s' & -> & [_ F] & A).
        exists (x :: sp), s'. repeat split; auto. discriminate.
      * exists [x], s. repeat split; auto. discriminate.
  - intros (sp & s' & -> & [N F] & A). revert prev A.
    induction F as [|x sp W F IH]; intros prev A; [contradiction|].
    apply accepts_spaces_step. exists x, (sp ++ s'). repeat split; auto.
    destruct sp as [|y sp].
    + right. exact A.
    + left. apply IH; [discriminate|]. exact A.
Qed.

Lemma accepts_literal w k prev s :
  Accepts (map Chr w ++ k) prev s <->
  exists b s', s = b ++ s' /\ SameText b w /\ Accepts k (lastOpt prev b) s'.
Proof.
  revert prev s. induction w as [|c w IH]; intros prev s; simpl.
  - split.
    + intros A. exists [], s. repeat split; auto. constructor.
    + intros (b & s' & -> & F & A). inversion F; subst. exact A.
  - rewrite accepts_chr. split.
    + intros (x & s' & -> & E & A). apply IH in A.
      destruct A as (b & s'' & -> & F & A).
      exists (x :: b), s''. repeat split; auto. constructor; auto.
    + intros (b & s' & -> & F & A). inversion F as [|x c' b' w' E F']; subst.
      exists x, (b' ++ s'). repeat split; auto. apply IH.
      exists b', s'. repeat split; auto.
Qed.

Lemma accepts_spaced ws k prev s :
  Accepts (spaced ws ++ k) prev s <->
  exists body s', s = body ++ s' /\ Shaped ws body
    /\ Accepts k (lastOpt prev body) s'.
Proof.
  revert prev s. induction ws as [|w ws IH]; intros prev s.
  - simpl. split.
    + intros A. exists [], s. repeat split; auto. constructor.
    + intros (b & s' & -> & F & A). inversion F; subst. exact A.
  - destruct ws as [|w' ws].
    + simpl. unfold literal. rewrite accepts_literal. split.
      * intros (b & s' & -> & F & A). exists b, s'. repeat split; auto.
        constructor. exact F.
      * intros (b & s' & -> & F & A). inversion F; subst.
        exists b, s'. repeat split; auto.
    + change (spaced (w :: w' :: ws))
        with (literal w ++ Spaces :: spaced (w' :: ws)).
      rewrite <- app_assoc. unfold literal at 1. rewrite accepts_literal.
      split.
      * intros (b & s' & -> & F & A). simpl in A.
        apply accepts_spaces in A. destruct A as (sp & s'' & -> & W & A).
        apply IH in A. destruct A as (rest & s3 & -> & Sh & A).
        exists (b ++ sp ++ rest), s3. repeat split.
        -- now rewrite <- !app_assoc.
        -- constructor; auto.
        -- now rewrite !lastOpt_app.
      * intros (body & s' & -> & Sh & A).
        inversion Sh as [| |w0 w1 ws0 b sp rest F W Sh']; subst.
        exists b, (sp ++ rest ++ s'). repeat split; auto.
        -- now rewrite <- !app_assoc.
        -- simpl. apply accepts_spaces. exists sp, (rest ++ s').
           repeat split; try apply W. apply IH.
           exists rest, s'. repeat split; auto.
           now rewrite !lastOpt_app in A.
Qed.

Lemma searchFrom_iff p prev s :
  searchFrom p prev s = true <->
  exists pre post, s = pre ++ post /\ Accepts p (lastOpt prev pre) post.
Proof.
  revert prev. induction s as [|x s IH]; intros prev; simpl.
  - destruct (matchAt p prev []) as [n|] eqn:M; split; auto.
    + intros _. exists [], []. split; auto. exists n. exact M.
    + discriminate.
    + intros (pre & post & E & [n A]).
      symmetry in E. apply app_eq_nil in E. destruct E as [-> ->].
      simpl in A. congruence.
  - destruct (matchAt p prev (x :: s)) as [n|] eqn:M; split; auto.
    + intros _. exists [], (x :: s). split; auto. exists n. exact M.
    + intros H. apply IH in H. destruct H as (pre & post & -> & A).
      exists (x :: pre), post. split; auto.
    + intros (pre & post & E & [n A]). destruct pre as [|y pre].
      * simpl in E, A. subst post. congruence.
      * injection E as <- ->. apply IH. exists pre, post. split; auto.
        exists n. exact A.
Qed.

End Matcher.

(** ** Word characters at the edges of a signature *)

Section Edges.

Ltac unbool :=
  repeat match goal with
  | H : _ && _ = true |- _ => apply andb_true_iff in H; destruct H
  | H : _ || _ = true |- _ => apply orb_true_iff in H; destruct H
  | H : (_ <=? _)%N = true |- _ => apply N.leb_le in H
  | H : (_ =? _)%N = true |- _ => apply N.eqb_eq in H
  | H : (_ <=? _)%N = false |- _ => apply N.leb_gt in H
  | H : _ && _ = false |- _ => apply andb_false_iff in H; destruct H
  end.

Lemma sameChar_word x c :
  sameChar x c = true -> isWordChar c = true -> isWordChar x = true.
Proof.
  unfold sameChar, canonicalize, isWordChar, isAsciiLower, inRange.
  intros E W.
  assert (R : forall a b : N, (a <=? b)%N = true \/ (a <=? b)%N = false)
    by (intros a b; destruct (a <=? b)%N; auto).
  destruct (R 97%N x), (R x 122%N), (R 97%N c), (R c 122%N);
    repeat match goal with H : (_ <=? _)%N = _ |- _ =>
      rewrite H in *; apply N.leb_le in H || apply N.leb_gt in H end;
    simpl in *; unbool; subst;
    repeat rewrite orb_true_iff; repeat rewrite andb_true_iff;
    repeat rewrite N.leb_le; repeat rewrite N.eqb_eq; lia.
Qed.

Lemma sameText_word b w :
  SameText b w -> forallb isWordChar w = true -> forallb isWordChar b = true.
Proof.
  induction 1 as [|x c b w E F IH]; simpl; auto.
  intros H. apply andb_true_iff in H. destruct H as [Hc Hw].
  rewrite (sameChar_word _ _ E Hc). simpl. auto.
Qed.

Lemma sameText_nonempty b w : SameText b w -> isEmpty w = false -> b <> [].
Proof. intros F E. inversion F; subst; [discriminate E|discriminate]. Qed.

Lemma word_edges b :
  b <> [] -> forallb isWordChar b = true ->
  isWordAt (hd_error b) = true /\ forall prev, isWordAt (lastOpt prev b) = true.
Proof.
  intros Hne W. destruct b as [|x b]; [contradiction|]. clear Hne.
  simpl in W. apply andb_true_iff in W. destruct W as [Wx W]. split; auto.
  intros prev. rewrite lastOpt_cons. clear prev. revert x Wx W.
  induction b as [|y b IH]; intros x Wx W; simpl; auto.
  simpl in W. apply andb_true_iff in W. destruct W as [Wy W].
  apply (IH y); auto.
Qed.

Lemma hd_error_app_nonempty (a b : jsString) :
  a <> [] -> hd_error (a ++ b) = hd_error a.
Proof. destruct a; [contradiction|reflexivity]. Qed.

Lemma wordsOnly_cons w w' ws :
  wordsOnly (w :: w' :: ws) = true ->
  isEmpty (js w) = false /\ forallb isWordChar (js w) = true
  /\ wordsOnly (w' :: ws) = true.
Proof.
  unfold wordsOnly. cbn [forallb andb]. intros H.
  apply andb_true_iff in H. destruct H as [H1 H].
  apply andb_true_iff in H1. destruct H1 as [H1 H2].
  apply negb_true_iff in H1. auto.
Qed.

Lemma wordsOnly_last w :
  wordsOnly [w] = true ->
  isEmpty (js w) = false /\ forallb isWordChar (js w) = true.
Proof.
  unfold wordsOnly. cbn [forallb andb]. intros H.
  apply andb_true_iff in H. destruct H as [H1 _].
  apply andb_true_iff in H1. destruct H1 as [H1 H2].
  apply negb_true_iff in H1. auto.
Qed.

Lemma shaped_edges ws body :
  wordsOnly ws = true -> Shaped ws body ->
  body <> [] /\ isWordAt (hd_error body) = true
  /\ forall prev, isWordAt (lastOpt prev body) = true.
Proof.
  intros H Sh. induction Sh as [|w b F|w w' ws b sp rest F W Sh IH].
  - discriminate H.
  - apply wordsOnly_last in H. destruct H as [E Wd].
    pose proof (sameText_nonempty F E) as Hne.
    pose proof (sameText_word F Wd) as Wb.
    split; auto. now apply word_edges.
  - apply wordsOnly_cons in H. destruct H as (E & Wd & H).
    pose proof (sameText_nonempty F E) as Hne.
    pose proof (sameText_word F Wd) as Wb.
    destruct (IH H) as (_ & _ & L).
    destruct (word_edges Hne Wb) as [Hd _].
    split; [|split].
    + destruct b; [contradiction|discriminate].
    + rewrite hd_error_app_nonempty; auto.
    + intros prev. rewrite !lastOpt_app. apply L.
Qed.

(** For a signature made of words, [test] finds exactly the whole-word
    occurrences. *)
Lemma test_words_iff ws text :
  wordsOnly ws = true ->
  test (words ws) text = true <-> WholeWordOccurrence ws text.
Proof.
  intros Wf. unfold test, words, WholeWordOccurrence.
  rewrite searchFrom_iff. split.
  - intros (pre & post & -> & A).
    apply accepts_boundary in A. destruct A as [B1 A].
    apply accepts_spaced in A. destruct A as (body & s' & -> & Sh & A).
    apply accepts_boundary in A. destruct A as [B2 _].
    destruct (shaped_edges Wf Sh) as (Hne & Hd & L).
    exists pre, body, s'. repeat split; auto.
    + rewrite hd_error_app_nonempty in B1 by exact Hne.
      unfold atBoundary in B1. rewrite Hd in B1.
      destruct (isWordAt (lastOpt None pre)); [discriminate|reflexivity].
    + unfold atBoundary in B2. rewrite L in B2.
      destruct (isWordAt (hd_error s')); [discriminate|reflexivity].
  - intros (pre & body & post & -> & Sh & B1 & B2).
    destruct (shaped_edges Wf Sh) as (Hne & Hd & L).
    exists pre, (body ++ post). split; auto.
    apply accepts_boundary. split.
    + rewrite hd_error_app_nonempty by exact Hne.
      unfold atBoundary. now rewrite Hd, B1.
    + apply accepts_spaced. exists body, post. repeat split; auto.
      apply accepts_boundary. split; [|apply accepts_nil].
      unfold atBoundary. now rewrite L, B2.
Qed.

End Edges.

(** ** The catalog and the loop over it *)

Section Catalog.

Lemma dmlPatterns_catalog : dmlPatterns = map signatureOf catalog.
Proof. reflexivity. Qed.

Lemma catalog_wordsOnly ws nm : In (ws, nm) catalog -> wordsOnly ws = true.
Proof.
  intros H.
  assert (A : forallb (fun e => wordsOnly (fst e)) catalog = true)
    by (vm_compute; reflexivity).
  rewrite forallb_forall in A. exact (A _ H).
Qed.

Lemma listed_in_catalog e : In e listedConstructs -> In e catalog.
Proof.
  intros H. unfold listedConstructs in H. unfold catalog.
  repeat (destruct H as [<-|H];
          [repeat ((left; reflexivity) || right)|]).
  contradiction.
Qed.

Lemma firstMatch_some ps text p :
  firstMatch ps text = Some p ->
  exists before after,
    ps = before ++ p :: after /\ test (pattern p) text = true
    /\ forall s, In s before -> test (pattern s) text = false.
Proof.
  induction ps as [|s ps IH]; simpl; [discriminate|].
  destruct (test (pattern s) text) eqn:T.
  - intros [= <-]. exists [], ps. repeat split; auto. intros ? [].
  - intros H. destruct (IH H) as (before & after & -> & Tp & B).
    exists (s :: before), after. repeat split; auto.
    intros s' [<-|I]; auto.
Qed.

Lemma firstMatch_none ps text :
  firstMatch ps text = None <->
  forall s, In s ps -> test (pattern s) text = false.
Proof.
  induction ps as [|s ps IH]; simpl.
  - split; auto. intros _ ? [].
  - destruct (test (pattern s) text) eqn:T; split.
    + discriminate.
    + intros H. specialize (H s (or_introl eq_refl)). congruence.
    + intros H s' [<-|I]; auto. now apply IH.
    + intros H. apply IH. auto.
Qed.

Lemma firstMatch_found ps text s :
  In s ps -> test (pattern s) text = true ->
  exists p, firstMatch ps text = Some p.
Proof.
  intros I T. destruct (firstMatch ps text) as [p|] eqn:E; [eauto|].
  rewrite firstMatch_none in E. rewrite (E s I) in T. discriminate.
Qed.

Lemma map_eq_app_cons {A B} (f : A -> B) l before p after :
  map f l = before ++ p :: after ->
  exists l1 x l2,
    l = l1 ++ x :: l2 /\ map f l1 = before /\ f x = p /\ map f l2 = after.
Proof.
  revert before. induction l as [|a l IH]; intros before H.
  - destruct before; discriminate.
  - destruct before as [|b before]; simpl in H.
    + injection H as Ha Hl. exists [], a, l. auto.
    + injection H as Ha Hl. destruct (IH _ Hl) as (l1 & x & l2 & -> & E1 & E2 & E3).
      exists (a :: l1), x, l2. simpl. rewrite E1, Ha. auto.
Qed.

(** What the classifier answers, in terms of the catalog: the first entry
    with a whole-word occurrence in the normalized query, if there is one. *)
Lemma containsDMLStatements_detected query :
  firstMatch dmlPatterns (normalizedQuery query) <> None ->
  exists before ws nm after,
    catalog = before ++ (ws, nm) :: after
    /\ containsDMLStatements query = detected nm
    /\ WholeWordOccurrence ws (normalizedQuery query)
    /\ forall e, In e before ->
         ~ WholeWordOccurrence (fst e) (normalizedQuery query).
Proof.
  intros H. unfold containsDMLStatements.
  destruct (firstMatch dmlPatterns (normalizedQuery query)) as [p|] eqn:E;
    [clear H|contradiction].
  apply firstMatch_some in E. destruct E as (before & after & D & T & B).
  rewrite dmlPatterns_catalog in D. apply map_eq_app_cons in D.
  destruct D as (l1 & [ws nm] & l2 & C & <- & <- & <-).
  assert (I : In (ws, nm) catalog) by (rewrite C; apply in_elt).
  exists l1, ws, nm, l2. repeat split; auto.
  - apply test_words_iff; [exact (catalog_wordsOnly I)|exact T].
  - intros [ws' nm'] I' O.
    assert (Ic : In (ws', nm') catalog) by (rewrite C; apply in_or_app; auto).
    simpl in O. apply test_words_iff in O; [|exact (catalog_wordsOnly Ic)].
    pose proof (B (signatureOf (ws', nm')) (in_map signatureOf _ _ I')) as Bf.
    simpl in Bf. congruence.
Qed.


End Catalog.

(** ** The handlers, case by case *)

Section Handlers.

Variable bigquery : BigQuery.
Variable q : jsString.
Variable projectId : option jsString.
Variable history : list Event.

Lemma dry_run_query_cases :
  isEmpty q = false ->
  dry_run_query bigquery q projectId history =
  match createQueryJob bigquery history (dryRunOptions q projectId) with
  | inl e =>
      (Returned (Failure (Some (plain (errorText e)))),
       [CreateQueryJob (dryRunOptions q projectId);
        ConsoleError (js "Dry run error:") e])
  | inr job =>
      (Returned
         (DryRunReport (bytesOf job)
            [GigabytesFixed2 (bytesOf job); Lit (js " GB (");
             TerabytesFixed4 (bytesOf job); Lit (js " TB)")]
            (belowLimit (bytesOf job))
            (if belowLimit (bytesOf job) then
               [Lit (js "Dry run successful. Query will process ");
                GigabytesFixed2 (bytesOf job);
                Lit (js " GB, which is below the 1 TB limit.")]
             else
               [Lit (js "Dry run successful, but query will process ");
                GigabytesFixed2 (bytesOf job);
                Lit (js " GB, which exceeds the 1 TB limit.")])),
       [CreateQueryJob (dryRunOptions q projectId)])
  end.
Proof.
  intros E. unfold dry_run_query. rewrite E.
  unfold complete, Eff.tryCatch, Eff.bind, Eff.awaitCreateQueryJob, catchBlock,
    Eff.consoleError, Eff.ret, bytesOf.
  rewrite app_nil_r.
  destruct (createQueryJob bigquery history (dryRunOptions q projectId));
    reflexivity.
Qed.

Variable maxResults : option Z.

Lemma run_query_with_validation_cases :
  isEmpty q = false ->
  isDML (containsDMLStatements q) = false ->
  run_query_with_validation bigquery q projectId maxResults history =
  match createQueryJob bigquery history (dryRunOptions q projectId) with
  | inl e =>
      (Returned (Failure (Some (plain (errorText e)))),
       [CreateQueryJob (dryRunOptions q projectId);
        ConsoleError (js "Query error:") e])
  | inr job =>
      if belowLimit (bytesOf job) then
        match query bigquery
                (history ++ [CreateQueryJob (dryRunOptions q projectId)])
                (runOptions q projectId (rowCap maxResults)) with
        | inl e =>
            (Returned (Failure (Some (plain (errorText e)))),
             [CreateQueryJob (dryRunOptions q projectId);
              Query (runOptions q projectId (rowCap maxResults));
              ConsoleError (js "Query error:") e])
        | inr rows =>
            (Returned
               (Executed (bytesOf job)
                  [GigabytesFixed2 (bytesOf job); Lit (js " GB")]
                  (List.length rows) rows),
             [CreateQueryJob (dryRunOptions q projectId);
              Query (runOptions q projectId (rowCap maxResults))])
        end
      else
        (Returned
           (SizeExceeded (bytesOf job)
              [GigabytesFixed2 (bytesOf job); Lit (js " GB")]
              [Lit (js "Query would process "); GigabytesFixed2 (bytesOf job);
               Lit (js " GB, which exceeds the 1 TB limit.")]),
         [CreateQueryJob (dryRunOptions q projectId)])
  end.
Proof.
  intros E D. unfold run_query_with_validation. rewrite E, D.
  unfold complete, Eff.tryCatch, Eff.bind, Eff.awaitCreateQueryJob, catchBlock,
    Eff.consoleError, Eff.ret, bytesOf, rowCap.
  rewrite app_nil_r.
  destruct (createQueryJob bigquery history (dryRunOptions q projectId))
    as [e|job]; [reflexivity|].
  destruct (belowLimit (totalBytesProcessed (statistics (metadata job))));
    [|reflexivity].
  cbn [negb]. unfold Eff.bind, Eff.awaitQuery. cbn [app].
  destruct (query bigquery _ _); reflexivity.
Qed.

Lemma run_query_with_validation_mutating :
  isEmpty q = false ->
  isDML (containsDMLStatements q) = true ->
  run_query_with_validation bigquery q projectId maxResults history =
  (Returned (Failure (option_map plain (message (containsDMLStatements q)))),
   []).
Proof.
  intros E D. unfold run_query_with_validation. now rewrite E, D.
Qed.

Lemma run_query_with_validation_empty :
  isEmpty q = true ->
  run_query_with_validation bigquery q projectId maxResults history =
  (McpError InvalidParams (js "Query is required"), []).
Proof. intros E. unfold run_query_with_validation. now rewrite E. Qed.

End Handlers.

(** ** The comment marks and the two deletions agree *)

Section CommentMarks.

Lemma lineCommentMarks_length s :
  forall inside, List.length (lineCommentMarks inside s) = List.length s.
Proof.
  induction s as [|a r IH]; intros inside; [reflexivity|].
  cbn [lineCommentMarks]. destruct inside.
  - destruct (isLineTerminator a); cbn [List.length]; now rewrite IH.
  - destruct r as [|b r']; [reflexivity|].
    destruct ((a =? 45)%N && (b =? 45)%N); cbn [List.length] in *;
      now rewrite IH.
Qed.

Lemma blockCommentMarks_inside a b r :
  blockCommentMarks true (a :: b :: r)
  = if (a =? 42)%N && (b =? 47)%N
    then true :: true :: blockCommentMarks false r
    else true :: blockCommentMarks true (b :: r).
Proof. reflexivity. Qed.

Lemma blockCommentMarks_outside a b r :
  blockCommentMarks false (a :: b :: r)
  = if (a =? 47)%N && (b =? 42)%N && closes r
    then true :: true :: blockCommentMarks true r
    else false :: blockCommentMarks false (b :: r).
Proof. reflexivity. Qed.

Lemma blockCommentMarks_length n :
  forall s inside,
    (List.length s <= n)%nat ->
    List.length (blockCommentMarks inside s) = List.length s.
Proof.
  induction n as [|n IH]; intros s inside L.
  - destruct s; [reflexivity|simpl in L; lia].
  - destruct s as [|a [|b r]]; [reflexivity|destruct inside; reflexivity|].
    cbn [List.length] in L. destruct inside.
    + rewrite blockCommentMarks_inside.
      destruct ((a =? 42)%N && (b =? 47)%N); cbn [List.length];
        rewrite IH; cbn [List.length]; auto; lia.
    + rewrite blockCommentMarks_outside.
      destruct ((a =? 47)%N && (b =? 42)%N && closes r); cbn [List.length];
        rewrite IH; cbn [List.length]; auto; lia.
Qed.

Lemma deleteMatches_merge s :
  forall first second,
    List.length first = List.length s ->
    deleteMatches s (mergeMarks first second)
    = deleteMatches (deleteMatches s first) second.
Proof.
  induction s as [|c r IH]; intros first second L.
  - destruct first; [|discriminate L]. destruct second; reflexivity.
  - destruct first as [|m first]; [discriminate L|]. injection L as L.
    destruct m; simpl.
    + now apply IH.
    + destruct second as [|m2 second]; simpl.
      * rewrite IH by exact L. f_equal.
        now destruct (deleteMatches r first).
      * destruct m2; rewrite IH by exact L; reflexivity.
Qed.

(** Deleting what [commentMarks] marks is what the two [replace] calls of
    the classifier do, one after the other. *)
Lemma commentMarks_deleted query :
  deleteMatches query (commentMarks query)
  = removeBlockComments (removeLineComments query).
Proof.
  unfold commentMarks. rewrite deleteMatches_merge.
  - reflexivity.
  - apply lineCommentMarks_length.
Qed.

Lemma commentMarks_length query :
  List.length (commentMarks query) = List.length query.
Proof.
  unfold commentMarks.
  pose proof (lineCommentMarks_length query false) as L. revert L.
  generalize (lineCommentMarks false query).
  generalize (blockCommentMarks false (removeLineComments query)).
  induction query as [|c r IH]; intros second first L.
  - destruct first; [reflexivity|discriminate L].
  - destruct first as [|m first]; [discriminate L|]. injection L as L.
    destruct m; simpl; [now rewrite IH|].
    destruct second; simpl; now rewrite IH.
Qed.

End CommentMarks.

(** ** Labels and embedded spellings *)

Section Labels.

Lemma js_injective a b : js a = js b -> a = b.
Proof.
  unfold js. intros H.
  rewrite <- (string_of_list_ascii_of_string a).
  rewrite <- (string_of_list_ascii_of_string b). f_equal.
  revert H. generalize (list_ascii_of_string a) (list_ascii_of_string b).
  induction l as [|x l IH]; intros [|y l']; simpl; try discriminate; auto.
  intros [= Hx Hl]. f_equal; auto.
  rewrite <- (ascii_N_embedding x), <- (ascii_N_embedding y). now rewrite Hx.
Qed.

Lemma detected_injective a b : detected a = detected b -> a = b.
Proof.
  unfold detected, dmlMessage. intros [= H].
  apply app_inv_tail in H. now apply js_injective.
Qed.





End Labels.

(** ** Properties of the admission pipeline *)

(** C1. [run_query_with_validation] makes no call at all on the BigQuery
    client when the classifier reports a mutating statement, and it never
    calls [query] when the dry run reports 1,099,511,627,776 bytes or more:
    whenever [query] is called, the classifier reported no mutating
    statement and the dry run before it reported fewer bytes than that. *)
Theorem execution_is_gated
    (bigquery : BigQuery) (q : jsString) (projectId : option jsString)
    (maxResults : option Z) (history : list Event) :
  let events :=
    snd (run_query_with_validation bigquery q projectId maxResults history) in
  (isDML (containsDMLStatements q) = true ->
     events = [] /\ externalCalls events = 0%nat)
  /\ (forall job,
        createQueryJob bigquery history (dryRunOptions q projectId) = inr job ->
        (1099511627776 <= bytesOf job)%Z ->
        filter isQuery events = [])
  /\ (forall options, In (Query options) events ->
        isDML (containsDMLStatements q) = false
        /\ exists job,
             createQueryJob bigquery history (dryRunOptions q projectId)
               = inr job
             /\ (bytesOf job < 1099511627776)%Z).
Proof.
  intros events. subst events.
  destruct (isEmpty q) eqn:E.
  { rewrite run_query_with_validation_empty by exact E. simpl.
    split; [auto|]. split; [auto|]. intros ? []. }
  destruct (isDML (containsDMLStatements q)) eqn:D.
  { rewrite run_query_with_validation_mutating by assumption. simpl.
    split; [auto|]. split; [auto|]. intros ? []. }
  rewrite run_query_with_validation_cases by assumption.
  destruct (createQueryJob bigquery history (dryRunOptions q projectId))
    as [e|job] eqn:J.
  { simpl. split; [discriminate|]. split; [auto|].
    intros options [H|[H|[]]]; discriminate. }
  unfold belowLimit, SIZE_LIMIT_BYTES.
  destruct (bytesOf job <? 1099511627776)%Z eqn:B.
  - apply Z.ltb_lt in B.
    split; [discriminate|]. split.
    + intros job' [= <-] L. lia.
    + intros options _. split; auto. exists job. auto.
  - apply Z.ltb_ge in B. simpl. split; [discriminate|]. split; auto.
    intros options [H|[]]. discriminate.
Qed.

(** C2. Both handlers decide on the byte count [n] of the dry run by the
    integer comparison [n < 1,099,511,627,776]: it is the [isBelowLimit]
    flag of [dry_run_query], and [run_query_with_validation] answers with
    the size rejection exactly when it fails.  The count 1,099,511,627,776
    itself is not below the limit, and counts beyond 2^53 are compared as
    the integers they are. *)
Theorem limit_comparison_is_exact
    (bigquery : BigQuery) (q : jsString) (projectId : option jsString)
    (maxResults : option Z) (history : list Event) (job : Job) :
  isEmpty q = false ->
  createQueryJob bigquery history (dryRunOptions q projectId) = inr job ->
  let n := bytesOf job in
  (exists size msg,
     fst (dry_run_query bigquery q projectId history)
     = Returned (DryRunReport n size (n <? 1099511627776)%Z msg))
  /\ (isDML (containsDMLStatements q) = false ->
      ((1099511627776 <= n)%Z <->
       exists size err,
         fst (run_query_with_validation bigquery q projectId maxResults
                history)
         = Returned (SizeExceeded n size err)))
  /\ (belowLimit n = true <-> (n < 1099511627776)%Z)
  /\ belowLimit 1099511627776 = false
  /\ belowLimit 1099511627775 = true
  /\ belowLimit (2 ^ 53 + 1) = false
  /\ (forall k, (0 <= k)%Z -> belowLimit (2 ^ 53 + k) = false).
Proof.
  intros E J n. subst n. split; [|split; [|split]].
  - rewrite dry_run_query_cases by exact E. rewrite J. simpl. eauto.
  - intros D. rewrite run_query_with_validation_cases by assumption.
    rewrite J. unfold belowLimit, SIZE_LIMIT_BYTES.
    destruct (bytesOf job <? 1099511627776)%Z eqn:B.
    + apply Z.ltb_lt in B. split; [lia|].
      intros (size & err & H).
      destruct (query bigquery _ _); simpl in H; discriminate.
    + apply Z.ltb_ge in B. split; auto. intros _. simpl. eauto.
  - unfold belowLimit, SIZE_LIMIT_BYTES. apply Z.ltb_lt.
  - repeat split; try reflexivity.
    intros k Hk. unfold belowLimit, SIZE_LIMIT_BYTES. apply Z.ltb_ge. lia.
Qed.

(** C7. [dry_run_query] does not classify the statement: for every query
    that is not empty, a mutating one included, it goes to the dry run and,
    when the dry run succeeds, returns the report with [success: true]; the
    answer is not the rejection [run_query_with_validation] gives. *)
Theorem estimate_skips_classification
    (bigquery : BigQuery) (q : jsString) (projectId : option jsString)
    (history : list Event) (job : Job) :
  isEmpty q = false ->
  createQueryJob bigquery history (dryRunOptions q projectId) = inr job ->
  (exists size msg,
     dry_run_query bigquery q projectId history
     = (Returned (DryRunReport (bytesOf job) size (belowLimit (bytesOf job))
                    msg),
        [CreateQueryJob (dryRunOptions q projectId)]))
  /\ (exists p,
        fst (dry_run_query bigquery q projectId history) = Returned p
        /\ success p = true)
  /\ forall error,
       fst (dry_run_query bigquery q projectId history)
       <> Returned (Failure error).
Proof.
  intros E J. rewrite dry_run_query_cases by exact E. rewrite J.
  split; [eauto|]. split; [eexists; split; reflexivity|].
  intros error. simpl. discriminate.
Qed.

(** C8. With the empty string as query, both handlers throw the
    invalid-parameters [McpError] and return no payload; nothing is called
    or logged before that, whatever the client would answer. *)
Theorem empty_query_is_rejected
    (bigquery : BigQuery) (projectId : option jsString)
    (maxResults : option Z) (history : list Event) :
  dry_run_query bigquery [] projectId history
  = (McpError InvalidParams (js "Query is required"), [])
  /\ run_query_with_validation bigquery [] projectId maxResults history
     = (McpError InvalidParams (js "Query is required"), []).
Proof. split; reflexivity. Qed.

(** C9. When the dry run or the execution throws, the handler catches the
    value and returns the failure payload whose [error] is the message of
    the [Error] (or the string of a value that is no [Error]); the client is
    called once per step and not again, and no thrown value ever leaves a
    handler. *)
Theorem client_failures_are_reported
    (bigquery : BigQuery) (q : jsString) (projectId : option jsString)
    (maxResults : option Z) (history : list Event) (e : Thrown) :
  isEmpty q = false ->
  (createQueryJob bigquery history (dryRunOptions q projectId) = inl e ->
     dry_run_query bigquery q projectId history
     = (Returned (Failure (Some (plain (errorText e)))),
        [CreateQueryJob (dryRunOptions q projectId);
         ConsoleError (js "Dry run error:") e])
     /\ (isDML (containsDMLStatements q) = false ->
         run_query_with_validation bigquery q projectId maxResults history
         = (Returned (Failure (Some (plain (errorText e)))),
            [CreateQueryJob (dryRunOptions q projectId);
             ConsoleError (js "Query error:") e])))
  /\ (forall job,
        isDML (containsDMLStatements q) = false ->
        createQueryJob bigquery history (dryRunOptions q projectId) = inr job ->
        belowLimit (bytesOf job) = true ->
        query bigquery (history ++ [CreateQueryJob (dryRunOptions q projectId)])
          (runOptions q projectId (rowCap maxResults)) = inl e ->
        run_query_with_validation bigquery q projectId maxResults history
        = (Returned (Failure (Some (plain (errorText e)))),
           [CreateQueryJob (dryRunOptions q projectId);
            Query (runOptions q projectId (rowCap maxResults));
            ConsoleError (js "Query error:") e]))
  /\ (forall msg, errorText (ErrorObject msg) = msg)
  /\ (forall thrown,
        fst (dry_run_query bigquery q projectId history) <> Uncaught thrown
        /\ fst (run_query_with_validation bigquery q projectId maxResults
                  history) <> Uncaught thrown).
Proof.
  intros E. split; [|split; [|split]].
  - intros J. split.
    + rewrite dry_run_query_cases by exact E. now rewrite J.
    + intros D. rewrite run_query_with_validation_cases by assumption.
      now rewrite J.
  - intros job D J B Q.
    rewrite run_query_with_validation_cases by assumption.
    now rewrite J, B, Q.
  - reflexivity.
  - intros thrown. split.
    + rewrite dry_run_query_cases by exact E.
      destruct (createQueryJob bigquery history _); discriminate.
    + destruct (isDML (containsDMLStatements q)) eqn:D.
      * rewrite run_query_with_validation_mutating by assumption.
        discriminate.
      * rewrite run_query_with_validation_cases by assumption.
        destruct (createQueryJob bigquery history _); [discriminate|].
        destruct (belowLimit _); [|discriminate].
        destruct (query bigquery _ _); discriminate.
Qed.

(** ** Properties of the classifier *)


(** The matching step on the normalized query (comments deleted, trimmed,
    in upper case): when that text holds a whole-word occurrence of a
    signature of the catalog, the classifier reports a mutating statement,
    under the label of the first signature of the catalog that occurs there
    as a whole word. *)
Lemma normalized_occurrence_is_reported
    (query : jsString) (ws : list string) (nm : string) :
  In (ws, nm) catalog ->
  WholeWordOccurrence ws (normalizedQuery query) ->
  exists before ws1 nm1 after,
    catalog = before ++ (ws1, nm1) :: after
    /\ containsDMLStatements query = detected nm1
    /\ isDML (containsDMLStatements query) = true
    /\ WholeWordOccurrence ws1 (normalizedQuery query)
    /\ (forall e, In e before ->
          ~ WholeWordOccurrence (fst e) (normalizedQuery query))
    /\ ((ws1, nm1) = (ws, nm) \/ In (ws, nm) after).
Proof.
  intros L O.
  pose proof O as T. apply test_words_iff in T; [|exact (catalog_wordsOnly L)].
  assert (F : firstMatch dmlPatterns (normalizedQuery query) <> None).
  { destruct (@firstMatch_found dmlPatterns (normalizedQuery query)
                (signatureOf (ws, nm))) as [p Hp].
    - rewrite dmlPatterns_catalog. now apply in_map.
    - exact T.
    - congruence. }
  destruct (@containsDMLStatements_detected query F)
    as (before & ws1 & nm1 & after & C & R & O1 & B).
  exists before, ws1, nm1, after. repeat split; auto.
  - now rewrite R.
  - rewrite C in L. apply in_app_or in L. destruct L as [L|[L|L]]; auto.
    exfalso. exact (B _ L O).
Qed.

(** The label is that of the first matching signature in catalog order, not
    of every construct of the query: a query with two constructs outside
    comments is labelled with the one that comes first in the catalog. *)
Lemma first_match_decides_the_label :
  let query := js "UPDATE t SET x = 1; COMMIT" in
  In (["COMMIT"], "COMMIT")%string listedConstructs
  /\ occursOutsideComments (words ["COMMIT"]%string) query = true
  /\ commentMarks query = repeat false (List.length query)
  /\ containsDMLStatements query = detected "UPDATE"
  /\ containsDMLStatements query <> detected "COMMIT".
Proof.
  intros query. split; [simpl; tauto|].
  split; [vm_compute; reflexivity|].
  split; [vm_compute; reflexivity|].
  assert (R : containsDMLStatements query = detected "UPDATE")
    by (vm_compute; reflexivity).
  split; [exact R|]. rewrite R. intros H.
  apply detected_injective in H. discriminate H.
Qed.

(** C3 at the failing input.  UPDATE is one of the listed constructs, and the
    query holds it once, as a whole word at index 0 and outside any comment:
    the only comment of the query is the empty block comment at indices 6
    to 9.  The classifier deletes that comment without leaving a separator,
    so the keyword and the table name behind the comment are read as the one
    word UPDATET: nothing is reported, and the handler goes on to the dry run
    and the execution of the statement.  With a space in front of the comment
    the same statement is reported.  INSERT INTO and DELETE FROM are missed
    in the same way. *)
Theorem construct_before_comment_is_missed :
  let query := js "UPDATE/**/t SET x = 1" in
  In (["UPDATE"], "UPDATE")%string listedConstructs
  /\ occurrences (words ["UPDATE"]%string) query = [(0, 6)]%nat
  /\ commentMarks query = repeat false 6 ++ repeat true 4 ++ repeat false 11
  /\ covered (commentMarks query) (0, 6)%nat = repeat false 6
  /\ occursOutsideComments (words ["UPDATE"]%string) query = true
  /\ WholeWordOccurrence ["UPDATE"]%string query
  /\ normalizedQuery query = js "UPDATET SET X = 1"
  /\ (forall ws nm,
        In (ws, nm) catalog ->
        ~ WholeWordOccurrence ws (normalizedQuery query))
  /\ containsDMLStatements query = notDetected
  /\ isDML (containsDMLStatements query) = false
  /\ (forall projectId maxResults history,
        run_query_with_validation (steadyClient 0 []) query
          projectId maxResults history
        = (Returned (Executed 0 [GigabytesFixed2 0; Lit (js " GB")] 0 []),
           [CreateQueryJob (dryRunOptions query projectId);
            Query (runOptions query projectId (rowCap maxResults))]))
  /\ containsDMLStatements (js "UPDATE /**/t SET x = 1") = detected "UPDATE"
  /\ containsDMLStatements (js "UPDATE t SET x = 1") = detected "UPDATE"
  /\ occursOutsideComments (words ["INSERT"; "INTO"]%string)
       (js "INSERT INTO/**/t VALUES (1)") = true
  /\ containsDMLStatements (js "INSERT INTO/**/t VALUES (1)") = notDetected
  /\ occursOutsideComments (words ["DELETE"; "FROM"]%string)
       (js "DELETE FROM/**/t WHERE true") = true
  /\ containsDMLStatements (js "DELETE FROM/**/t WHERE true") = notDetected.
Proof.
  intros query.
  assert (R : containsDMLStatements query = notDetected)
    by (vm_compute; reflexivity).
  split; [simpl; tauto|].
  split; [vm_compute; reflexivity|].
  split; [vm_compute; reflexivity|].
  split; [vm_compute; reflexivity|].
  split; [vm_compute; reflexivity|].
  split; [apply test_words_iff; vm_compute; reflexivity|].
  split; [vm_compute; reflexivity|].
  split.
  { intros ws nm I O.
    destruct (normalized_occurrence_is_reported query I O)
      as (before & ws1 & nm1 & after & _ & D & _).
    rewrite R in D. discriminate D. }
  split; [exact R|].
  split; [rewrite R; reflexivity|].
  repeat split; vm_compute; reflexivity.
Qed.

(** A block comment between a keyword and the next token: the classifier
    deletes the comment and reads both as one word, and the statement goes
    on to the dry run and the execution. *)
Lemma block_comment_fuses_tokens :
  let query := js "UPDATE/**/t SET x = 1" in
  occursOutsideComments (words ["UPDATE"]%string) query = true
  /\ removeBlockComments (removeLineComments query) = js "UPDATEt SET x = 1"
  /\ containsDMLStatements query = notDetected
  /\ snd (run_query_with_validation (steadyClient 0 []) query None None [])
     = [CreateQueryJob (dryRunOptions query None);
        Query (runOptions query None 100)].
Proof. intros query. repeat split; vm_compute; reflexivity. Qed.

(** C4 at the failing input.  The only occurrence of a catalog signature in
    the query is inside the block comment, at index 13.  Deleting the
    comment joins the fragments on either side of it, and the classifier
    reports UPDATE. *)
Theorem comment_between_fragments_is_flagged :
  let query := js "SELECT upd/* UPDATE */ate FROM t" in
  forallb (fun e => occursOnlyInComments (words (fst e)) query) catalog = true
  /\ occurrences (words ["UPDATE"]%string) query = [(13, 6)]%nat
  /\ covered (commentMarks query) (13, 6)%nat = repeat true 6
  /\ removeBlockComments (removeLineComments query) = js "SELECT update FROM t"
  /\ containsDMLStatements query = detected "UPDATE".
Proof. intros query. repeat split; vm_compute; reflexivity. Qed.

(** C5 at the failing inputs.  The catalog has the "create or replace"
    signature for tables and views only, and the "alter" signature for
    tables only: the same statements on functions, procedures and views are
    not reported, and the query goes on to the dry run and the execution. *)
Theorem replace_and_alter_forms_pass :
  containsDMLStatements
    (js "CREATE OR REPLACE FUNCTION ds.f(x INT64) AS (x + 1)") = notDetected
  /\ containsDMLStatements
       (js "CREATE OR REPLACE PROCEDURE ds.p() BEGIN SELECT 1; END")
     = notDetected
  /\ containsDMLStatements
       (js "ALTER VIEW ds.v SET OPTIONS (description = 'daily')")
     = notDetected
  /\ containsDMLStatements (js "ALTER FUNCTION ds.f SET OPTIONS ()")
     = notDetected
  /\ containsDMLStatements (js "ALTER PROCEDURE ds.p SET OPTIONS ()")
     = notDetected
  /\ containsDMLStatements (js "CREATE OR REPLACE TABLE ds.t (x INT64)")
     = detected "CREATE OR REPLACE TABLE"
  /\ containsDMLStatements (js "CREATE OR REPLACE VIEW ds.v AS SELECT 1")
     = detected "CREATE OR REPLACE VIEW"
  /\ containsDMLStatements (js "ALTER TABLE ds.t SET OPTIONS ()")
     = detected "ALTER TABLE"
  /\ forall projectId maxResults history,
       run_query_with_validation (steadyClient 0 [])
         (js "CREATE OR REPLACE FUNCTION ds.f(x INT64) AS (x + 1)")
         projectId maxResults history
       = (Returned (Executed 0 [GigabytesFixed2 0; Lit (js " GB")] 0 []),
          [CreateQueryJob
             (dryRunOptions
                (js "CREATE OR REPLACE FUNCTION ds.f(x INT64) AS (x + 1)")
                projectId);
           Query
             (runOptions
                (js "CREATE OR REPLACE FUNCTION ds.f(x INT64) AS (x + 1)")
                projectId (rowCap maxResults))]).
Proof.
  repeat split; vm_compute; reflexivity.
Qed.



(** C10. The classifier knows no string literals.  The query below has no
    comment and spells UPDATE only between the quotes of a literal; it is
    classified as mutating with the label UPDATE, and
    [run_query_with_validation] rejects it without any call on the client,
    whatever the arguments and the client. *)
Theorem keyword_in_string_literal_is_rejected :
  exists query,
    query = js "SELECT 'UPDATE me' AS note FROM t"
    /\ commentMarks query = repeat false (List.length query)
    /\ nth_error query 7 = Some 39%N /\ nth_error query 17 = Some 39%N
    /\ map (fun e => (snd e, occurrences (words (fst e)) query))
         (filter (fun e =>
                    negb (Nat.eqb
                            (List.length (occurrences (words (fst e)) query))
                            0))
            catalog)
       = [("UPDATE"%string, [(8, 6)]%nat)]
    /\ containsDMLStatements query = detected "UPDATE"
    /\ forall bigquery projectId maxResults history,
         run_query_with_validation bigquery query projectId maxResults history
         = (Returned (Failure (Some (plain (dmlMessage "UPDATE")))), []).
Proof.
  eexists. split; [reflexivity|].
  repeat split; try (vm_compute; reflexivity).
Qed.

(** ** Concrete runs *)

Lemma execution_is_gated_witness :
  let insert := js "INSERT INTO t VALUES (1)" in
  let select := js "SELECT * FROM t" in
  (isDML (containsDMLStatements insert) = true
   /\ snd (run_query_with_validation (steadyClient 5 twoRows) insert None
             None []) = [])
  /\ ((1099511627776 <= bytesOf (jobOf 2000000000000))%Z
      /\ filter isQuery
           (snd (run_query_with_validation
                   (steadyClient 2000000000000 twoRows) select None None []))
         = [])
  /\ (In (Query (runOptions select None 100))
        (snd (run_query_with_validation (steadyClient 1073741824 twoRows)
                select None None []))
      /\ isDML (containsDMLStatements select) = false
      /\ exists job,
           createQueryJob (steadyClient 1073741824 twoRows) []
             (dryRunOptions select None) = inr job
           /\ (bytesOf job < 1099511627776)%Z).
Proof.
  intros insert select.
  assert (D : isDML (containsDMLStatements insert) = true)
    by (vm_compute; reflexivity).
  assert (B : (1099511627776 <= bytesOf (jobOf 2000000000000))%Z)
    by (vm_compute; discriminate).
  assert (Q : In (Query (runOptions select None 100))
                (snd (run_query_with_validation
                        (steadyClient 1073741824 twoRows) select None None
                        [])))
    by (vm_compute; right; left; reflexivity).
  split; [|split].
  - split; [exact D|].
    exact (proj1 (proj1 (execution_is_gated (steadyClient 5 twoRows) insert
                           None None []) D)).
  - split; [exact B|].
    exact (proj1 (proj2 (execution_is_gated
                           (steadyClient 2000000000000 twoRows) select None
                           None []))
             (jobOf 2000000000000) eq_refl B).
  - split; [exact Q|].
    exact (proj2 (proj2 (execution_is_gated
                           (steadyClient 1073741824 twoRows) select None
                           None []))
             (runOptions select None 100) Q).
Defined.

Lemma limit_comparison_is_exact_witness :
  let select := js "SELECT * FROM t" in
  let client := steadyClient 1099511627776 twoRows in
  isEmpty select = false
  /\ createQueryJob client [] (dryRunOptions select None)
     = inr (jobOf 1099511627776)
  /\ (exists size msg,
        fst (dry_run_query client select None [])
        = Returned (DryRunReport 1099511627776 size false msg))
  /\ (exists size err,
        fst (run_query_with_validation client select None None [])
        = Returned (SizeExceeded 1099511627776 size err)).
Proof.
  intros select client.
  assert (E : isEmpty select = false) by reflexivity.
  assert (J : createQueryJob client [] (dryRunOptions select None)
              = inr (jobOf 1099511627776)) by reflexivity.
  pose proof (@limit_comparison_is_exact client select None None []
                (jobOf 1099511627776) E J) as (R1 & R2 & _).
  split; [exact E|]. split; [exact J|]. split; [exact R1|].
  apply R2; [vm_compute; reflexivity|vm_compute; discriminate].
Defined.

Lemma estimate_skips_classification_witness :
  let insert := js "INSERT INTO t VALUES (1)" in
  let client := steadyClient 1073741824 [] in
  isEmpty insert = false
  /\ createQueryJob client [] (dryRunOptions insert None)
     = inr (jobOf 1073741824)
  /\ containsDMLStatements insert = detected "INSERT INTO"
  /\ (exists size msg,
        dry_run_query client insert None []
        = (Returned (DryRunReport 1073741824 size true msg),
           [CreateQueryJob (dryRunOptions insert None)])).
Proof.
  intros insert client.
  assert (E : isEmpty insert = false) by reflexivity.
  assert (J : createQueryJob client [] (dryRunOptions insert None)
              = inr (jobOf 1073741824)) by reflexivity.
  split; [exact E|]. split; [exact J|].
  split; [vm_compute; reflexivity|].
  exact (proj1 (@estimate_skips_classification client insert None []
                  (jobOf 1073741824) E J)).
Defined.

Lemma client_failures_are_reported_witness :
  let select := js "SELECT * FROM t" in
  let failure := ErrorObject (js "Invalid query syntax") in
  isEmpty select = false
  /\ createQueryJob (brokenClient failure) [] (dryRunOptions select None)
     = inl failure
  /\ dry_run_query (brokenClient failure) select None []
     = (Returned (Failure (Some (plain (js "Invalid query syntax")))),
        [CreateQueryJob (dryRunOptions select None);
         ConsoleError (js "Dry run error:") failure])
  /\ run_query_with_validation (estimateOnlyClient 1073741824 failure) select
       None None []
     = (Returned (Failure (Some (plain (js "Invalid query syntax")))),
        [CreateQueryJob (dryRunOptions select None);
         Query (runOptions select None 100);
         ConsoleError (js "Query error:") failure]).
Proof.
  intros select failure.
  assert (E : isEmpty select = false) by reflexivity.
  assert (J : createQueryJob (brokenClient failure) []
                (dryRunOptions select None) = inl failure) by reflexivity.
  split; [exact E|]. split; [exact J|]. split.
  - exact (proj1 (proj1 (@client_failures_are_reported (brokenClient failure)
                           select None None [] failure E) J)).
  - apply (proj1 (proj2 (@client_failures_are_reported
                           (estimateOnlyClient 1073741824 failure) select
                           None None [] failure E))
             (jobOf 1073741824)); vm_compute; reflexivity.
Defined.

(** ** The tests of the repository and the scenarios of the specification *)

Section Tests.

(** [/\bCREATE\s+TABLE\b/i], atom by atom. *)
Example create_table_pattern :
  words ["CREATE"; "TABLE"]%string
  = [WordBoundary; Chr 67; Chr 82; Chr 69; Chr 65; Chr 84; Chr 69; Spaces;
     Chr 84; Chr 65; Chr 66; Chr 76; Chr 69; WordBoundary]%N.
Proof. reflexivity. Qed.

Example test_select :
  containsDMLStatements (js "SELECT * FROM users WHERE age > 18")
  = notDetected.
Proof. vm_compute. reflexivity. Qed.

Example test_select_with_comments :
  containsDMLStatements
    (lf ++ js "      -- a comment" ++ lf
     ++ js "      SELECT * FROM users" ++ lf
     ++ js "      /* a comment" ++ lf ++ js "         over" ++ lf
     ++ js "         several lines */" ++ lf
     ++ js "      WHERE age > 18" ++ lf ++ js "    ")
  = notDetected.
Proof. vm_compute. reflexivity. Qed.

Example test_create_table :
  containsDMLStatements (js "CREATE TABLE new_table (id INT, name STRING)")
  = detected "CREATE TABLE".
Proof. vm_compute. reflexivity. Qed.

Example test_insert_into :
  containsDMLStatements
    (js "INSERT INTO users (id, name) VALUES (1, " ++ dquote ++ js "John"
     ++ dquote ++ js ")")
  = detected "INSERT INTO".
Proof. vm_compute. reflexivity. Qed.

Example test_update :
  containsDMLStatements
    (js "UPDATE users SET name = " ++ dquote ++ js "Jane" ++ dquote
     ++ js " WHERE id = 1")
  = detected "UPDATE".
Proof. vm_compute. reflexivity. Qed.

Example test_delete_from :
  containsDMLStatements (js "DELETE FROM users WHERE id = 1")
  = detected "DELETE FROM".
Proof. vm_compute. reflexivity. Qed.

Example test_keywords_in_comments :
  containsDMLStatements
    (lf ++ js "      SELECT * FROM users" ++ lf
     ++ js "      -- " ++ kokoniwa ++ js "INSERT INTO" ++ gaarimasu ++ lf
     ++ js "      /* " ++ kokoniwa ++ lf
     ++ js "         CREATE TABLE" ++ gaarimasu ++ lf
     ++ js "         */" ++ lf
     ++ js "      WHERE age > 18" ++ lf ++ js "    ")
  = notDetected.
Proof. vm_compute. reflexivity. Qed.

(** Every label of the catalog, taken as a query, is reported under that
    label. *)
Example labels_are_detected :
  map (fun e => containsDMLStatements (js (snd e))) catalog
  = map (fun e => detected (snd e)) catalog.
Proof. vm_compute. reflexivity. Qed.

Example scenario_1 :
  exists size msg,
    dry_run_query (steadyClient 1073741824 []) (js "SELECT * FROM t") None []
    = (Returned (DryRunReport 1073741824 size true msg),
       [CreateQueryJob (dryRunOptions (js "SELECT * FROM t") None)]).
Proof. do 2 eexists. vm_compute. reflexivity. Qed.

Example scenario_2 :
  fst (dry_run_query (steadyClient 1099511627777 []) (js "SELECT * FROM t")
         None [])
  = Returned
      (DryRunReport 1099511627777
         [GigabytesFixed2 1099511627777; Lit (js " GB (");
          TerabytesFixed4 1099511627777; Lit (js " TB)")]
         false
         [Lit (js "Dry run successful, but query will process ");
          GigabytesFixed2 1099511627777;
          Lit (js " GB, which exceeds the 1 TB limit.")]).
Proof. vm_compute. reflexivity. Qed.

Example scenario_3 (bigquery : BigQuery) :
  run_query_with_validation bigquery (js "INSERT INTO t VALUES (1)") None
    None []
  = (Returned (Failure (Some (plain (dmlMessage "INSERT INTO")))), []).
Proof. vm_compute. reflexivity. Qed.

Example scenario_4 :
  run_query_with_validation (steadyClient 1073741824 twoRows)
    (js "SELECT * FROM t") None None []
  = (Returned
       (Executed 1073741824 [GigabytesFixed2 1073741824; Lit (js " GB")] 2
          twoRows),
     [CreateQueryJob (dryRunOptions (js "SELECT * FROM t") None);
      Query (runOptions (js "SELECT * FROM t") None 100)]).
Proof. vm_compute. reflexivity. Qed.

Example scenario_5 :
  exists size err,
    run_query_with_validation (steadyClient 2000000000000 twoRows)
      (js "SELECT * FROM t") None None []
    = (Returned (SizeExceeded 2000000000000 size err),
       [CreateQueryJob (dryRunOptions (js "SELECT * FROM t") None)]).
Proof. do 2 eexists. vm_compute. reflexivity. Qed.

Example scenario_6 :
  fst (dry_run_query (brokenClient (ErrorObject (js "Invalid query syntax")))
         (js "SELECT * FROM t") None [])
  = Returned (Failure (Some (plain (js "Invalid query syntax")))).
Proof. vm_compute. reflexivity. Qed.

End Tests.

(** ** Further properties of the handlers *)

(** X1. [dry_run_query] never executes a query: whatever the client, the
    arguments and the history, it makes no [query] call, it makes at most
    one call in all, and that call is a [createQueryJob] with [dryRun: true]
    and the text of the query as received.  It returns the report or the
    failure payload, never the payloads of an execution. *)
Theorem dry_run_query_never_executes
    (bigquery : BigQuery) (q : jsString) (projectId : option jsString)
    (history : list Event) :
  let result := dry_run_query bigquery q projectId history in
  filter isQuery (snd result) = []
  /\ (externalCalls (snd result) <= 1)%nat
  /\ (forall options, In (CreateQueryJob options) (snd result) ->
        options = dryRunOptions q projectId
        /\ job_dryRun options = true /\ job_query options = q)
  /\ (forall n size rows count,
        fst result <> Returned (Executed n size count rows))
  /\ (forall n size err, fst result <> Returned (SizeExceeded n size err)).
Proof.
  intros result. subst result. destruct (isEmpty q) eqn:E.
  - unfold dry_run_query. rewrite E. simpl.
    split; [reflexivity|]. split; [unfold externalCalls; simpl; lia|]. split; [intros ? []|].
    split; discriminate.
  - rewrite dry_run_query_cases by exact E.
    destruct (createQueryJob bigquery history (dryRunOptions q projectId));
      simpl; (split; [reflexivity|]); (split; [unfold externalCalls; simpl; lia|]);
      (split; [|split; discriminate]).
    + intros options [H|[H|[]]]; [|discriminate].
      injection H as <-. auto.
    + intros options [H|[]]. injection H as <-. auto.
Qed.

(** X2. The calls of [run_query_with_validation] follow one protocol: the
    first event, if there is one, is the dry run of the query as received;
    a [query] call comes second, right after that dry run, at most once, and
    carries the same query text, the same project and the caller's
    [maxResults], or 100 when none was given.  There are never more than
    two calls on the client. *)
Theorem run_query_call_protocol
    (bigquery : BigQuery) (q : jsString) (projectId : option jsString)
    (maxResults : option Z) (history : list Event) :
  let events :=
    snd (run_query_with_validation bigquery q projectId maxResults history) in
  (events = []
   \/ exists rest,
        events = CreateQueryJob (dryRunOptions q projectId) :: rest
        /\ filter isCreateQueryJob rest = [])
  /\ (forall options, In (Query options) events ->
        (exists rest,
           events = CreateQueryJob (dryRunOptions q projectId)
                      :: Query options :: rest
           /\ filter isCall rest = [])
        /\ run_query options = q
        /\ run_projectId options = job_projectId (dryRunOptions q projectId)
        /\ run_maxResults options
           = match maxResults with Some n => n | None => 100%Z end)
  /\ (externalCalls events <= 2)%nat.
Proof.
  intros events. subst events. destruct (isEmpty q) eqn:E.
  { rewrite run_query_with_validation_empty by exact E. simpl.
    split; [auto|]. split; [intros ? []|unfold externalCalls; simpl; lia]. }
  destruct (isDML (containsDMLStatements q)) eqn:D.
  { rewrite run_query_with_validation_mutating by assumption. simpl.
    split; [auto|]. split; [intros ? []|unfold externalCalls; simpl; lia]. }
  rewrite run_query_with_validation_cases by assumption.
  destruct (createQueryJob bigquery history (dryRunOptions q projectId))
    as [e|job].
  { simpl. split; [right; eexists; split; reflexivity|].
    split; [|unfold externalCalls; simpl; lia]. intros options [H|[H|[]]]; discriminate. }
  destruct (belowLimit (bytesOf job)).
  - destruct (query bigquery _ _); simpl;
      (split; [right; eexists; split; reflexivity|]); (split; [|unfold externalCalls; simpl; lia]).
    + intros options [H|[H|[H|[]]]]; try discriminate.
      injection H as <-. split; [eexists; split; reflexivity|]. auto.
    + intros options [H|[H|[]]]; try discriminate.
      injection H as <-. split; [eexists; split; reflexivity|]. auto.
  - simpl. split; [right; eexists; split; reflexivity|].
    split; [|unfold externalCalls; simpl; lia]. intros options [H|[]]. discriminate.
Qed.

(** X3. [run_query_with_validation] answers [success: true] exactly when the
    query is not empty, the classifier reports no mutating statement, the
    dry run succeeds with a byte count below the limit and the execution
    succeeds.  The payload then carries the byte count of the dry run and
    the rows of the client as they came, [rowCount] being their number: the
    handler itself does not cut the rows down to [maxResults]. *)
Theorem execution_succeeds_exactly_when_admitted
    (bigquery : BigQuery) (q : jsString) (projectId : option jsString)
    (maxResults : option Z) (history : list Event) (p : Payload) :
  (fst (run_query_with_validation bigquery q projectId maxResults history)
   = Returned p /\ success p = true)
  <->
  (isEmpty q = false
   /\ isDML (containsDMLStatements q) = false
   /\ exists job rows,
        createQueryJob bigquery history (dryRunOptions q projectId) = inr job
        /\ (bytesOf job < 1099511627776)%Z
        /\ query bigquery
             (history ++ [CreateQueryJob (dryRunOptions q projectId)])
             (runOptions q projectId (rowCap maxResults)) = inr rows
        /\ p = Executed (bytesOf job)
                 [GigabytesFixed2 (bytesOf job); Lit (js " GB")]
                 (List.length rows) rows).
Proof.
  split.
  - intros [R S]. revert R. destruct (isEmpty q) eqn:E.
    { rewrite run_query_with_validation_empty by exact E. discriminate. }
    destruct (isDML (containsDMLStatements q)) eqn:D.
    { rewrite run_query_with_validation_mutating by assumption.
      cbn [fst]. intros [= <-]. discriminate S. }
    rewrite run_query_with_validation_cases by assumption.
    destruct (createQueryJob bigquery history (dryRunOptions q projectId))
      as [e|job]; [cbn [fst]; intros [= <-]; discriminate S|].
    unfold belowLimit, SIZE_LIMIT_BYTES.
    destruct (bytesOf job <? 1099511627776)%Z eqn:B;
      [|cbn [fst]; intros [= <-]; discriminate S].
    apply Z.ltb_lt in B.
    destruct (query bigquery _ _) as [e|rows] eqn:Q;
      [cbn [fst]; intros [= <-]; discriminate S|].
    cbn [fst]. intros [= <-].
    split; [reflexivity|]. split; [reflexivity|]. exists job, rows.
    split; [reflexivity|]. split; [exact B|]. split; reflexivity.
  - intros (E & D & job & rows & J & B & Q & ->).
    rewrite run_query_with_validation_cases by assumption.
    rewrite J. unfold belowLimit, SIZE_LIMIT_BYTES.
    apply Z.ltb_lt in B. rewrite B, Q. split; reflexivity.
Qed.

Lemma execution_succeeds_exactly_when_admitted_witness :
  fst (run_query_with_validation (steadyClient 1073741824 threeRows)
         (js "SELECT n FROM t") None (Some 1%Z) [])
  = Returned (Executed 1073741824 [GigabytesFixed2 1073741824; Lit (js " GB")]
                3 threeRows)
  /\ success (Executed 1073741824
                [GigabytesFixed2 1073741824; Lit (js " GB")] 3 threeRows)
     = true.
Proof.
  apply (proj2 (execution_succeeds_exactly_when_admitted
                  (steadyClient 1073741824 threeRows) (js "SELECT n FROM t")
                  None (Some 1%Z) []
                  (Executed 1073741824
                     [GigabytesFixed2 1073741824; Lit (js " GB")] 3
                     threeRows))).
  split; [reflexivity|]. split; [vm_compute; reflexivity|].
  exists (jobOf 1073741824), threeRows.
  repeat split; vm_compute; reflexivity.
Defined.

(** ** Further properties of the comment removal *)

Section LineComments.

Lemma scanLine_inside a r :
  scanLine true (a :: r)
  = if isLineTerminator a then a :: scanLine false r else scanLine true r.
Proof. unfold scanLine. simpl. now destruct (isLineTerminator a). Qed.

Lemma scanLine_outside a b r :
  scanLine false (a :: b :: r)
  = if (a =? 45)%N && (b =? 45)%N then scanLine true (b :: r)
    else a :: scanLine false (b :: r).
Proof.
  unfold scanLine. cbn [lineCommentMarks].
  now destruct ((a =? 45)%N && (b =? 45)%N).
Qed.

Lemma scanLine_skip tail rest :
  forallb (fun c => negb (isLineTerminator c)) tail = true ->
  scanLine true (tail ++ rest) = scanLine true rest.
Proof.
  induction tail as [|a tail IH]; intros H; [reflexivity|].
  cbn [forallb] in H. apply andb_true_iff in H. destruct H as [Ha H].
  apply negb_true_iff in Ha.
  change ((a :: tail) ++ rest) with (a :: (tail ++ rest)).
  rewrite scanLine_inside, Ha. now apply IH.
Qed.

Lemma scanLine_marker inside tail rest :
  forallb (fun c => negb (isLineTerminator c)) tail = true ->
  scanLine inside (45 :: 45 :: tail ++ rest)%N
  = scanLine inside (45 :: 45 :: rest)%N.
Proof.
  intros H. destruct inside.
  - repeat rewrite scanLine_inside.
    change (isLineTerminator 45%N) with false. cbn iota.
    now apply scanLine_skip.
  - rewrite !scanLine_outside. change ((45 =? 45)%N && (45 =? 45)%N) with true.
    cbn iota. repeat rewrite scanLine_inside.
    change (isLineTerminator 45%N) with false. cbn iota.
    now apply scanLine_skip.
Qed.

Lemma scanLine_prefix pre tail rest :
  forallb (fun c => negb (isLineTerminator c)) tail = true ->
  forall inside,
    scanLine inside (pre ++ 45 :: 45 :: tail ++ rest)%N
    = scanLine inside (pre ++ 45 :: 45 :: rest)%N.
Proof.
  intros H. induction pre as [|a pre IH]; intros inside.
  - now apply scanLine_marker.
  - change ((a :: pre) ++ ?x) with (a :: (pre ++ x)). destruct inside.
    + rewrite !scanLine_inside. destruct (isLineTerminator a); now rewrite IH.
    + destruct pre as [|b pre].
      * change ([] ++ ?x) with x in *. rewrite !scanLine_outside.
        destruct ((a =? 45)%N && (45 =? 45)%N).
        -- apply (IH true).
        -- f_equal. apply (IH false).
      * change ((b :: pre) ++ ?x) with (b :: (pre ++ x)) in *.
        rewrite !scanLine_outside.
        destruct ((a =? 45)%N && (b =? 45)%N).
        -- apply (IH true).
        -- f_equal. apply (IH false).
Qed.

Lemma hasDoubleHyphen_cons a s :
  (a =? 45)%N = false -> hasDoubleHyphen (a :: s) = hasDoubleHyphen s.
Proof.
  intros H. destruct s as [|b s]; [reflexivity|].
  cbn [hasDoubleHyphen]. now rewrite H.
Qed.

Lemma lineTerminator_not_hyphen a :
  isLineTerminator a = true -> (a =? 45)%N = false.
Proof.
  unfold isLineTerminator. intros H. apply N.eqb_neq. intros ->.
  discriminate H.
Qed.

Lemma scanLine_keeps_head b r :
  (b =? 45)%N = false -> scanLine false (b :: r) = b :: scanLine false r.
Proof.
  intros H. destruct r as [|c r]; [reflexivity|].
  rewrite scanLine_outside, H. reflexivity.
Qed.

Lemma scanLine_no_marker s :
  forall inside, hasDoubleHyphen (scanLine inside s) = false.
Proof.
  induction s as [|a s IH]; intros inside; [now destruct inside|].
  destruct inside.
  - rewrite scanLine_inside. destruct (isLineTerminator a) eqn:L; [|apply IH].
    rewrite hasDoubleHyphen_cons by now apply lineTerminator_not_hyphen.
    apply IH.
  - destruct s as [|b s]; [reflexivity|]. rewrite scanLine_outside.
    destruct (a =? 45)%N eqn:A; cbn [andb].
    + destruct (b =? 45)%N eqn:B; [apply IH|].
      rewrite scanLine_keeps_head by exact B.
      change (hasDoubleHyphen (a :: b :: ?t))
        with (((a =? 45)%N && (b =? 45)%N) || hasDoubleHyphen (b :: t)).
      rewrite B, andb_false_r. cbn [orb].
      rewrite <- scanLine_keeps_head by exact B. apply IH.
    + rewrite hasDoubleHyphen_cons by exact A. apply IH.
Qed.

Lemma scanLine_without_marker s :
  hasDoubleHyphen s = false -> scanLine false s = s.
Proof.
  induction s as [|a s IH]; intros H; [reflexivity|].
  destruct s as [|b s]; [reflexivity|].
  change (hasDoubleHyphen (a :: b :: s))
    with (((a =? 45)%N && (b =? 45)%N) || hasDoubleHyphen (b :: s)) in H.
  apply orb_false_iff in H. destruct H as [H1 H2].
  rewrite scanLine_outside, H1. f_equal. now apply IH.
Qed.

Lemma scanLine_line_terminators s :
  forall inside,
    filter isLineTerminator (scanLine inside s) = filter isLineTerminator s.
Proof.
  induction s as [|a s IH]; intros inside; [now destruct inside|].
  destruct inside.
  - rewrite scanLine_inside. cbn [filter].
    destruct (isLineTerminator a) eqn:L; [|apply IH].
    cbn [filter]. rewrite L. f_equal. apply IH.
  - destruct s as [|b s]; [reflexivity|]. rewrite scanLine_outside.
    destruct ((a =? 45)%N && (b =? 45)%N) eqn:C.
    + apply andb_true_iff in C. destruct C as [A _].
      apply N.eqb_eq in A. subst a. cbn [filter isLineTerminator N.eqb orb Pos.eqb].
      apply IH.
    + cbn [filter]. now rewrite IH.
Qed.

End LineComments.

(** X4. What stands between two hyphens and the end of the line never
    reaches the classifier: replacing it by anything, or nothing, changes
    neither the text left by the removal of line comments nor the
    classification.  This holds wherever the hyphens stand, inside a block
    comment or a string literal too. *)
Theorem line_comment_tail_is_ignored (pre tail rest : jsString) :
  forallb (fun c => negb (isLineTerminator c)) tail = true ->
  removeLineComments (pre ++ js "--" ++ tail ++ rest)
  = removeLineComments (pre ++ js "--" ++ rest)
  /\ containsDMLStatements (pre ++ js "--" ++ tail ++ rest)
     = containsDMLStatements (pre ++ js "--" ++ rest).
Proof.
  intros H.
  assert (E : removeLineComments (pre ++ js "--" ++ tail ++ rest)
              = removeLineComments (pre ++ js "--" ++ rest)).
  { change (removeLineComments ?x) with (scanLine false x).
    change (js "--" ++ ?x) with (45 :: 45 :: x)%N.
    now apply scanLine_prefix. }
  split; [exact E|].
  unfold containsDMLStatements, normalizedQuery. now rewrite E.
Qed.

Lemma line_comment_tail_is_ignored_witness :
  forallb (fun c => negb (isLineTerminator c)) (js " */ UPDATE t SET x = 1")
  = true
  /\ containsDMLStatements (js "/* " ++ js "--" ++ js " */ UPDATE t SET x = 1" ++ [])
     = containsDMLStatements (js "/* " ++ js "--" ++ [])
  /\ containsDMLStatements (js "/* " ++ js "--" ++ []) = notDetected.
Proof.
  assert (H : forallb (fun c => negb (isLineTerminator c))
                (js " */ UPDATE t SET x = 1") = true) by reflexivity.
  split; [exact H|]. split; [|vm_compute; reflexivity].
  exact (proj2 (line_comment_tail_is_ignored (js "/* ") _ [] H)).
Defined.

(** X5. The removal of line comments leaves no two hyphens in a row, so
    doing it again changes nothing; and it keeps every line terminator, in
    order: it never joins two lines. *)
Theorem removeLineComments_leaves_no_marker (s : jsString) :
  hasDoubleHyphen (removeLineComments s) = false
  /\ removeLineComments (removeLineComments s) = removeLineComments s
  /\ filter isLineTerminator (removeLineComments s)
     = filter isLineTerminator s.
Proof.
  change (removeLineComments ?x) with (scanLine false x).
  pose proof (scanLine_no_marker s false) as N0.
  split; [exact N0|]. split.
  - now apply scanLine_without_marker.
  - apply scanLine_line_terminators.
Qed.

Section BlockComments.

Lemma scanBlock_inside a b r :
  scanBlock true (a :: b :: r)
  = if (a =? 42)%N && (b =? 47)%N then scanBlock false r
    else scanBlock true (b :: r).
Proof.
  unfold scanBlock. rewrite blockCommentMarks_inside.
  now destruct ((a =? 42)%N && (b =? 47)%N).
Qed.

Lemma scanBlock_outside a b r :
  scanBlock false (a :: b :: r)
  = if (a =? 47)%N && (b =? 42)%N && closes r then scanBlock true r
    else a :: scanBlock false (b :: r).
Proof.
  unfold scanBlock. rewrite blockCommentMarks_outside.
  now destruct ((a =? 47)%N && (b =? 42)%N && closes r).
Qed.

Lemma closes_cons a b r :
  closes (a :: b :: r) = ((a =? 42)%N && (b =? 47)%N) || closes (b :: r).
Proof. reflexivity. Qed.

Lemma closes_tail a r : closes (a :: r) = false -> closes r = false.
Proof.
  destruct r as [|b r]; [reflexivity|]. rewrite closes_cons.
  intros H. now apply orb_false_iff in H.
Qed.

Lemma scanBlock_unclosed s : closes s = false -> scanBlock false s = s.
Proof.
  induction s as [|a s IH]; intros H; [reflexivity|].
  destruct s as [|b s]; [reflexivity|].
  pose proof (closes_tail _ _ H) as H1.
  pose proof (closes_tail _ _ H1) as H2.
  rewrite scanBlock_outside, H2, andb_false_r. f_equal. now apply IH.
Qed.

Lemma closes_later a r : closes r = true -> closes (a :: r) = true.
Proof.
  destruct r as [|b r]; [discriminate|]. intros H.
  rewrite closes_cons, H. apply orb_true_r.
Qed.

Lemma closes_app_marker body rest :
  closes (body ++ 42 :: 47 :: rest)%N = true.
Proof.
  induction body as [|a body IH]; [reflexivity|].
  change ((a :: body) ++ ?x) with (a :: (body ++ x)).
  now apply closes_later.
Qed.

Lemma scanBlock_to_close body rest :
  closes body = false ->
  scanBlock true (body ++ 42 :: 47 :: rest)%N = scanBlock false rest.
Proof.
  induction body as [|a body IH]; intros H.
  - change ([] ++ ?x) with x. rewrite scanBlock_inside. reflexivity.
  - change ((a :: body) ++ ?x) with (a :: (body ++ x)).
    pose proof (closes_tail _ _ H) as H1. destruct body as [|b body].
    + change ([] ++ ?x) with x in *. rewrite scanBlock_inside.
      change ((42 =? 47)%N) with false. rewrite andb_false_r.
      now apply IH.
    + change ((b :: body) ++ ?x) with (b :: (body ++ x)) in *.
      rewrite scanBlock_inside. rewrite closes_cons in H.
      apply orb_false_iff in H. destruct H as [H _]. rewrite H.
      now apply IH.
Qed.

End BlockComments.

Section UnclosedComments.

Lemma closes_head a s :
  closes (a :: s)
  = ((a =? 42)%N && match s with b :: _ => (b =? 47)%N | [] => false end)
    || closes s.
Proof. destruct s as [|b s]; [now rewrite andb_false_r|reflexivity]. Qed.

Lemma scanLine_inside_head s :
  match scanLine true s with
  | c :: _ => isLineTerminator c = true
  | [] => True
  end.
Proof.
  induction s as [|a s IH]; [exact I|]. rewrite scanLine_inside.
  destruct (isLineTerminator a) eqn:L; [exact L|exact IH].
Qed.

Lemma lineTerminator_not_slash c :
  isLineTerminator c = true -> (c =? 47)%N = false.
Proof.
  unfold isLineTerminator. intros H. apply N.eqb_neq. intros ->.
  discriminate H.
Qed.

Lemma lineTerminator_not_star c :
  isLineTerminator c = true -> (c =? 42)%N = false.
Proof.
  unfold isLineTerminator. intros H. apply N.eqb_neq. intros ->.
  discriminate H.
Qed.

Lemma scanLine_unclosed s :
  forall inside, closes s = false -> closes (scanLine inside s) = false.
Proof.
  induction s as [|a s IH]; intros inside H; [now destruct inside|].
  pose proof (closes_tail _ _ H) as H1. destruct inside.
  - rewrite scanLine_inside. destruct (isLineTerminator a) eqn:L.
    + rewrite closes_head, (lineTerminator_not_star _ L). cbn [andb orb].
      now apply IH.
    + now apply IH.
  - destruct s as [|b s]; [reflexivity|]. rewrite scanLine_outside.
    destruct ((a =? 45)%N && (b =? 45)%N) eqn:C; [now apply IH|].
    rewrite closes_head, (IH false H1), orb_false_r.
    destruct (a =? 42)%N eqn:A; [|reflexivity]. cbn [andb].
    rewrite closes_cons, A in H. cbn [andb] in H.
    apply orb_false_iff in H. destruct H as [B _].
    destruct (b =? 45)%N eqn:B45.
    + destruct s as [|c s]; [apply N.eqb_eq in B45; now subst b|].
      rewrite scanLine_outside.
      destruct ((b =? 45)%N && (c =? 45)%N).
      * pose proof (scanLine_inside_head (c :: s)) as Hd.
        destruct (scanLine true (c :: s)) as [|d t]; [reflexivity|].
        now apply lineTerminator_not_slash.
      * exact B.
    + rewrite scanLine_keeps_head by exact B45. exact B.
Qed.

End UnclosedComments.

(** X6. A query without star-slash is left as it is by the removal of
    block comments: a comment that is opened and not closed hides nothing,
    and the classifier scans what the removal of line comments leaves. *)
Theorem unterminated_block_comment_is_kept (s : jsString) :
  closes s = false ->
  removeBlockComments s = s
  /\ normalizedQuery s = toUpperCase (trim (removeLineComments s)).
Proof.
  intros H. split.
  - now apply scanBlock_unclosed.
  - unfold normalizedQuery.
    change (removeBlockComments ?x) with (scanBlock false x).
    rewrite scanBlock_unclosed; [reflexivity|].
    now apply (scanLine_unclosed s false).
Qed.

Lemma unterminated_block_comment_is_kept_witness :
  closes (js "SELECT 1 /* UPDATE t SET x = 1") = false
  /\ removeBlockComments (js "SELECT 1 /* UPDATE t SET x = 1")
     = js "SELECT 1 /* UPDATE t SET x = 1"
  /\ containsDMLStatements (js "SELECT 1 /* UPDATE t SET x = 1")
     = detected "UPDATE".
Proof.
  assert (H : closes (js "SELECT 1 /* UPDATE t SET x = 1") = false)
    by reflexivity.
  split; [exact H|]. split; [|vm_compute; reflexivity].
  exact (proj1 (unterminated_block_comment_is_kept _ H)).
Defined.

(** X7. Block comments do not nest: a comment that opens the text ends at
    the first star-slash behind its slash-star, whatever stands between
    them, a second slash-star included; the rest of the text is scanned
    from there. *)
Theorem block_comment_ends_at_first_close (body rest : jsString) :
  closes body = false ->
  removeBlockComments (js "/*" ++ body ++ js "*/" ++ rest)
  = removeBlockComments rest.
Proof.
  intros H. change (removeBlockComments ?x) with (scanBlock false x).
  change (js "/*" ++ ?x) with (47 :: 42 :: x)%N.
  change (js "*/" ++ ?x) with (42 :: 47 :: x)%N.
  rewrite scanBlock_outside, closes_app_marker.
  change ((47 =? 47)%N && (42 =? 42)%N && true) with true. cbn iota.
  now apply scanBlock_to_close.
Qed.

Lemma block_comment_ends_at_first_close_witness :
  closes (js " a /* b ") = false
  /\ removeBlockComments
       (js "/*" ++ js " a /* b " ++ js "*/" ++ js " UPDATE t SET x = 1 */")
     = js " UPDATE t SET x = 1 */"
  /\ containsDMLStatements (js "/* a /* b */ UPDATE t SET x = 1 */")
     = detected "UPDATE".
Proof.
  assert (H : closes (js " a /* b ") = false) by reflexivity.
  split; [exact H|]. split; [|vm_compute; reflexivity].
  rewrite (block_comment_ends_at_first_close _ (js " UPDATE t SET x = 1 */") H).
  vm_compute. reflexivity.
Defined.

(** ** Letter case *)

Section LetterCase.

Ltac decide_N :=
  repeat match goal with
  | |- context [N.eqb ?a ?b] => destruct (N.eqb_spec a b); [try lia|]
  | |- context [N.leb ?a ?b] => destruct (N.leb_spec a b); try lia
  end;
  cbn [andb orb negb]; try reflexivity; try lia.

Lemma sameChar_cases x y :
  sameChar x y = true ->
  x = y
  \/ ((97 <= x <= 122)%N /\ y = (x - 32)%N)
  \/ ((97 <= y <= 122)%N /\ x = (y - 32)%N).
Proof.
  unfold sameChar, canonicalize, isAsciiLower, inRange. intros H.
  apply N.eqb_eq in H. revert H.
  destruct (N.leb_spec 97 x), (N.leb_spec x 122), (N.leb_spec 97 y),
    (N.leb_spec y 122); cbn [andb]; intros Heq; lia.
Qed.

Lemma letter_is_plain v :
  (65 <= v <= 122)%N ->
  isLineTerminator v = false /\ isWhiteSpace v = false
  /\ (v =? 45)%N = false /\ (v =? 42)%N = false /\ (v =? 47)%N = false.
Proof.
  intros H. unfold isLineTerminator, isWhiteSpace, inRange.
  repeat split; decide_N.
Qed.

Lemma upper_of_capital v : (65 <= v <= 90)%N -> upperCodeUnit v = [v].
Proof.
  intros H. unfold upperCodeUnit, isAsciiLower, inRange. decide_N.
Qed.

Lemma upper_of_small v :
  (97 <= v <= 122)%N -> upperCodeUnit v = [(v - 32)%N].
Proof.
  intros H. unfold upperCodeUnit, isAsciiLower, inRange. decide_N.
Qed.

Lemma sameChar_plain x y :
  sameChar x y = true ->
  isLineTerminator x = isLineTerminator y
  /\ isWhiteSpace x = isWhiteSpace y
  /\ (x =? 45)%N = (y =? 45)%N /\ (x =? 42)%N = (y =? 42)%N
  /\ (x =? 47)%N = (y =? 47)%N
  /\ upperCodeUnit x = upperCodeUnit y.
Proof.
  intros H. destruct (sameChar_cases _ _ H) as [->|[[R ->]|[R ->]]].
  - repeat split.
  - destruct (@letter_is_plain x) as (A1 & A2 & A3 & A4 & A5); [lia|].
    destruct (@letter_is_plain (x - 32)%N) as (B1 & B2 & B3 & B4 & B5); [lia|].
    rewrite A1, A2, A3, A4, A5, B1, B2, B3, B4, B5.
    rewrite (upper_of_small R), (@upper_of_capital (x - 32)%N) by lia. repeat split.
  - destruct (@letter_is_plain y) as (A1 & A2 & A3 & A4 & A5); [lia|].
    destruct (@letter_is_plain (y - 32)%N) as (B1 & B2 & B3 & B4 & B5); [lia|].
    rewrite A1, A2, A3, A4, A5, B1, B2, B3, B4, B5.
    rewrite (upper_of_small R), (@upper_of_capital (y - 32)%N) by lia. repeat split.
Qed.

Lemma sameText_lineCommentMarks q q' :
  SameText q q' ->
  forall inside, lineCommentMarks inside q = lineCommentMarks inside q'.
Proof.
  induction 1 as [|x y q q' E F IH]; intros inside; [reflexivity|].
  destruct (sameChar_plain _ _ E) as (L & _ & Hy & _).
  cbn [lineCommentMarks]. destruct inside.
  - rewrite L. now rewrite !IH.
  - destruct F as [|x2 y2 q2 q2' E2 F2]; [reflexivity|].
    destruct (sameChar_plain _ _ E2) as (_ & _ & Hy2 & _).
    rewrite Hy, Hy2. now rewrite !IH.
Qed.

Lemma sameText_closes q q' : SameText q q' -> closes q = closes q'.
Proof.
  induction 1 as [|x y q q' E F IH]; [reflexivity|].
  destruct F as [|x2 y2 q2 q2' E2 F2]; [reflexivity|].
  destruct (sameChar_plain _ _ E) as (_ & _ & _ & S & _).
  destruct (sameChar_plain _ _ E2) as (_ & _ & _ & _ & S2 & _).
  rewrite !closes_cons, S, S2. now rewrite IH.
Qed.

Lemma sameText_blockCommentMarks n :
  forall q q' inside,
    (List.length q <= n)%nat -> SameText q q' ->
    blockCommentMarks inside q = blockCommentMarks inside q'.
Proof.
  induction n as [|n IH]; intros q q' inside L F.
  - destruct F; [reflexivity|simpl in L; lia].
  - destruct F as [|x y q q' E F]; [reflexivity|].
    destruct F as [|x2 y2 q2 q2' E2 F2]; [now destruct inside|].
    cbn [List.length] in L.
    destruct (sameChar_plain _ _ E) as (_ & _ & _ & S & Sl & _).
    destruct (sameChar_plain _ _ E2) as (_ & _ & _ & S2 & Sl2 & _).
    assert (F' : SameText (x2 :: q2) (y2 :: q2')) by now constructor.
    destruct inside.
    + rewrite !blockCommentMarks_inside, S, Sl2.
      rewrite (IH q2 q2' false), (IH (x2 :: q2) (y2 :: q2') true);
        auto; cbn [List.length]; lia.
    + rewrite !blockCommentMarks_outside, Sl, S2, (sameText_closes F2).
      rewrite (IH q2 q2' true), (IH (x2 :: q2) (y2 :: q2') false);
        auto; cbn [List.length]; lia.
Qed.

Lemma sameText_deleteMatches q q' :
  SameText q q' ->
  forall marks, SameText (deleteMatches q marks) (deleteMatches q' marks).
Proof.
  induction 1 as [|x y q q' E F IH]; intros marks.
  - destruct marks; constructor.
  - destruct marks as [|m marks]; [now constructor|]. cbn [deleteMatches].
    destruct m; [apply IH|]. constructor; [exact E|apply IH].
Qed.

Lemma sameText_trimStart q q' :
  SameText q q' -> SameText (trimStart q) (trimStart q').
Proof.
  induction 1 as [|x y q q' E F IH]; [constructor|].
  destruct (sameChar_plain _ _ E) as (_ & W & _).
  cbn [trimStart]. rewrite W. destruct (isWhiteSpace y); [exact IH|].
  now constructor.
Qed.

Lemma sameText_app a a' b b' :
  SameText a a' -> SameText b b' -> SameText (a ++ b) (a' ++ b').
Proof.
  induction 1 as [|x y a a' E F IH]; intros G; [exact G|].
  change (SameText (x :: (a ++ b)) (y :: (a' ++ b'))).
  constructor; [exact E|exact (IH G)].
Qed.

Lemma sameText_rev q q' : SameText q q' -> SameText (rev q) (rev q').
Proof.
  induction 1 as [|x y q q' E F IH]; [constructor|].
  cbn [rev]. apply sameText_app; [exact IH|]. constructor; [exact E|constructor].
Qed.

Lemma sameText_toUpperCase q q' :
  SameText q q' -> toUpperCase q = toUpperCase q'.
Proof.
  induction 1 as [|x y q q' E F IH]; [reflexivity|].
  destruct (sameChar_plain _ _ E) as (_ & _ & _ & _ & _ & U).
  unfold toUpperCase in *. cbn [flat_map]. now rewrite U, IH.
Qed.

Lemma sameText_normalizedQuery q q' :
  SameText q q' -> normalizedQuery q = normalizedQuery q'.
Proof.
  intros F. unfold normalizedQuery. apply sameText_toUpperCase.
  unfold trim, trimEnd. apply sameText_rev, sameText_trimStart, sameText_rev,
    sameText_trimStart.
  assert (F1 : SameText (removeLineComments q) (removeLineComments q')).
  { unfold removeLineComments. rewrite (sameText_lineCommentMarks F false).
    now apply sameText_deleteMatches. }
  unfold removeBlockComments.
  rewrite (@sameText_blockCommentMarks _ _ _ false (Nat.le_refl _) F1).
  now apply sameText_deleteMatches.
Qed.

End LetterCase.

(** X8. The classification does not depend on letter case: two queries
    that differ only in the case of their ASCII letters have the same
    normalized text and get the same answer, label included. *)
Theorem classification_ignores_letter_case (q q' : jsString) :
  SameText q q' ->
  normalizedQuery q = normalizedQuery q'
  /\ containsDMLStatements q = containsDMLStatements q'.
Proof.
  intros F. pose proof (sameText_normalizedQuery F) as E.
  split; [exact E|]. unfold containsDMLStatements. now rewrite E.
Qed.

Lemma classification_ignores_letter_case_witness :
  SameText (js "Insert Into t values (1)") (js "INSERT into T VALUES (1)")
  /\ containsDMLStatements (js "Insert Into t values (1)")
     = containsDMLStatements (js "INSERT into T VALUES (1)")
  /\ containsDMLStatements (js "INSERT into T VALUES (1)")
     = detected "INSERT INTO".
Proof.
  assert (F : SameText (js "Insert Into t values (1)")
                (js "INSERT into T VALUES (1)"))
    by (repeat constructor).
  split; [exact F|]. split; [|vm_compute; reflexivity].
  exact (proj2 (classification_ignores_letter_case F)).
Defined.

(** ** Queries without comments *)

Section PlainQueries.

Ltac settle_N :=
  repeat match goal with
  | |- context [N.eqb ?a ?b] => destruct (N.eqb_spec a b); [try lia|]
  | |- context [N.leb ?a ?b] => destruct (N.leb_spec a b); try lia
  | |- context [N.ltb ?a ?b] => destruct (N.ltb_spec a b); try lia
  end;
  cbn [andb orb negb]; try reflexivity; try discriminate; try lia.

Lemma whiteSpace_not_word c : isWhiteSpace c = true -> isWordChar c = false.
Proof.
  unfold isWhiteSpace, isWordChar, inRange. intros H.
  destruct (N.leb_spec 48 c); [|settle_N].
  destruct (N.leb_spec c 122); [|settle_N].
  exfalso. revert H. settle_N.
Qed.

Lemma lastOpt_nonempty prev prev' l :
  l <> [] -> lastOpt prev l = lastOpt prev' l.
Proof. destruct l; [contradiction|reflexivity]. Qed.

Variable ws : list string.
Hypothesis ws_words : wordsOnly ws = true.

Lemma occurrence_cons_space c t :
  isWhiteSpace c = true ->
  WholeWordOccurrence ws (c :: t) <-> WholeWordOccurrence ws t.
Proof.
  intros W. pose proof (whiteSpace_not_word c W) as Nw. split.
  - intros (pre & body & post & E & Sh & B1 & B2).
    destruct (shaped_edges ws_words Sh) as (Hne & Hd & _).
    destruct pre as [|c' pre].
    + exfalso. destruct body as [|x body]; [contradiction|].
      simpl in E. injection E as <- _. simpl in Hd. congruence.
    + simpl in E. injection E as <- ->.
      exists pre, body, post. repeat split; auto.
      destruct pre as [|d pre]; [reflexivity|].
      rewrite lastOpt_cons in B1.
      now rewrite (@lastOpt_nonempty None (Some c) (d :: pre)).
  - intros (pre & body & post & -> & Sh & B1 & B2).
    exists (c :: pre), body, post. repeat split; auto.
    rewrite lastOpt_cons. destruct pre as [|d pre]; [exact Nw|].
    now rewrite (@lastOpt_nonempty (Some c) None (d :: pre)).
Qed.

Lemma occurrence_snoc_space c t :
  isWhiteSpace c = true ->
  WholeWordOccurrence ws (t ++ [c]) <-> WholeWordOccurrence ws t.
Proof.
  intros W. pose proof (whiteSpace_not_word c W) as Nw. split.
  - intros (pre & body & post & E & Sh & B1 & B2).
    destruct (shaped_edges ws_words Sh) as (Hne & _ & L).
    assert (C : post = [] \/ exists post' d, post = post' ++ [d]).
    { destruct post as [|p0 post0]; [now left|right].
      destruct (@exists_last _ (p0 :: post0)) as (post' & d & Ep);
        [discriminate|eauto]. }
    destruct C as [->|(post' & d & ->)].
    + exfalso. rewrite app_nil_r in E.
      assert (X : lastOpt None (t ++ [c]) = lastOpt None (pre ++ body))
        by now rewrite E.
      rewrite !lastOpt_app in X. simpl in X.
      specialize (L (lastOpt None pre)). rewrite <- X in L. simpl in L.
      congruence.
    + rewrite !app_assoc in E. apply app_inj_tail in E. destruct E as [-> <-].
      exists pre, body, post'. repeat split; auto.
      * now rewrite <- app_assoc.
      * destruct post' as [|x post']; [reflexivity|exact B2].
  - intros (pre & body & post & -> & Sh & B1 & B2).
    exists pre, body, (post ++ [c]). repeat split; auto.
    + now rewrite <- !app_assoc.
    + destruct post as [|x post]; [exact Nw|exact B2].
Qed.

Lemma occurrence_trimStart t :
  WholeWordOccurrence ws (trimStart t) <-> WholeWordOccurrence ws t.
Proof.
  induction t as [|c t IH]; [reflexivity|]. cbn [trimStart].
  destruct (isWhiteSpace c) eqn:W; [|reflexivity].
  rewrite IH. symmetry. now apply occurrence_cons_space.
Qed.

Lemma occurrence_trimEnd_rev l :
  WholeWordOccurrence ws (rev (trimStart l))
  <-> WholeWordOccurrence ws (rev l).
Proof.
  induction l as [|c l IH]; [reflexivity|]. cbn [trimStart].
  destruct (isWhiteSpace c) eqn:W; [|reflexivity].
  rewrite IH. cbn [rev]. symmetry. now apply occurrence_snoc_space.
Qed.

Lemma occurrence_trim t :
  WholeWordOccurrence ws (trim t) <-> WholeWordOccurrence ws t.
Proof.
  unfold trim, trimEnd. rewrite occurrence_trimEnd_rev, rev_involutive.
  apply occurrence_trimStart.
Qed.

End PlainQueries.

Section CaseOfOccurrences.

Lemma sameChar_sym x y : sameChar x y = sameChar y x.
Proof. unfold sameChar. apply N.eqb_sym. Qed.

Lemma sameChar_trans x y z :
  sameChar x y = true -> sameChar y z = true -> sameChar x z = true.
Proof.
  unfold sameChar. intros A B. apply N.eqb_eq in A, B. apply N.eqb_eq.
  congruence.
Qed.

Lemma sameChar_isWordChar x y :
  sameChar x y = true -> isWordChar x = isWordChar y.
Proof.
  intros E. destruct (isWordChar y) eqn:Wy.
  - exact (sameChar_word _ _ E Wy).
  - destruct (isWordChar x) eqn:Wx; [|reflexivity].
    rewrite sameChar_sym in E. rewrite (sameChar_word _ _ E Wx) in Wy.
    discriminate Wy.
Qed.

Lemma sameText_sym a b : SameText a b -> SameText b a.
Proof.
  induction 1 as [|x y a b E F IH]; constructor; auto.
  now rewrite sameChar_sym.
Qed.

Lemma sameText_trans a b c : SameText a b -> SameText b c -> SameText a c.
Proof.
  intros F. revert c. induction F as [|x y a b E F IH]; intros c G.
  - inversion G. constructor.
  - inversion G as [|y' z b' c' E' G']; subst. constructor.
    + exact (sameChar_trans _ _ _ E E').
    + now apply IH.
Qed.

Lemma sameText_whiteSpaceRun sp sp' :
  SameText sp sp' -> WhiteSpaceRun sp -> WhiteSpaceRun sp'.
Proof.
  intros F [Hne W]. split.
  - destruct F; [contradiction|discriminate].
  - clear Hne. induction F as [|x y sp sp' E F IH]; [constructor|].
    inversion W; subst. constructor; [|now apply IH].
    destruct (sameChar_plain _ _ E) as (_ & Ws & _). congruence.
Qed.

Lemma sameText_shaped ws body :
  Shaped ws body -> forall body', SameText body body' -> Shaped ws body'.
Proof.
  induction 1 as [|w b F|w w' ws b sp rest F W Sh IH]; intros body' G.
  - inversion G. constructor.
  - constructor. exact (sameText_trans (sameText_sym G) F).
  - apply Forall2_app_inv_l in G. destruct G as (b' & r' & G1 & G2 & ->).
    apply Forall2_app_inv_l in G2. destruct G2 as (sp' & rest' & G2 & G3 & ->).
    constructor.
    + exact (sameText_trans (sameText_sym G1) F).
    + exact (sameText_whiteSpaceRun G2 W).
    + now apply IH.
Qed.

Lemma sameText_lastOpt pre pre' :
  SameText pre pre' ->
  forall prev prev',
    isWordAt prev = isWordAt prev' ->
    isWordAt (lastOpt prev pre) = isWordAt (lastOpt prev' pre').
Proof.
  induction 1 as [|x y pre pre' E F IH]; intros prev prev' H; [exact H|].
  rewrite !lastOpt_cons. apply IH. simpl. now apply sameChar_isWordChar.
Qed.

Lemma sameText_occurrence ws t t' :
  SameText t t' -> WholeWordOccurrence ws t -> WholeWordOccurrence ws t'.
Proof.
  intros F (pre & body & post & -> & Sh & B1 & B2).
  apply Forall2_app_inv_l in F. destruct F as (pre' & r' & F1 & F2 & ->).
  apply Forall2_app_inv_l in F2. destruct F2 as (body' & post' & F2 & F3 & ->).
  exists pre', body', post'. repeat split.
  - exact (sameText_shaped Sh F2).
  - rewrite <- (sameText_lastOpt F1 None None eq_refl). exact B1.
  - destruct F3 as [|x y post post' E F3]; [exact B2|].
    simpl in *. now rewrite <- (sameChar_isWordChar _ _ E).
Qed.

Lemma upper_of_ascii c :
  isAscii c = true -> upperCodeUnit c = [canonicalize c].
Proof.
  unfold isAscii, upperCodeUnit, canonicalize, isAsciiLower, inRange.
  intros H. apply N.ltb_lt in H.
  destruct (N.leb_spec 97 c), (N.leb_spec c 122); cbn [andb];
    try reflexivity;
    repeat match goal with
    | |- context [N.eqb ?a ?b] => destruct (N.eqb_spec a b); [lia|]
    end; reflexivity.
Qed.

Lemma canonicalize_idempotent c : canonicalize (canonicalize c) = canonicalize c.
Proof.
  unfold canonicalize, isAsciiLower, inRange.
  repeat match goal with
  | |- context [N.leb ?a ?b] => destruct (N.leb_spec a b); cbn [andb] in *
  end; try reflexivity; lia.
Qed.

Lemma sameText_toUpperCase_ascii t :
  forallb isAscii t = true -> SameText t (toUpperCase t).
Proof.
  induction t as [|c t IH]; intros H; [constructor|].
  cbn [forallb] in H. apply andb_true_iff in H. destruct H as [Hc H].
  unfold toUpperCase. cbn [flat_map]. rewrite (upper_of_ascii c Hc).
  constructor; [|now apply IH].
  unfold sameChar. rewrite canonicalize_idempotent. apply N.eqb_refl.
Qed.

Lemma ascii_trimStart t :
  forallb isAscii t = true -> forallb isAscii (trimStart t) = true.
Proof.
  induction t as [|c t IH]; intros H; [reflexivity|]. cbn [trimStart].
  destruct (isWhiteSpace c); [|exact H].
  cbn [forallb] in H. apply andb_true_iff in H. now apply IH.
Qed.

Lemma ascii_rev t :
  forallb isAscii t = true -> forallb isAscii (rev t) = true.
Proof.
  rewrite !forallb_forall. intros H x I. apply H. now apply in_rev.
Qed.

Lemma ascii_trim t :
  forallb isAscii t = true -> forallb isAscii (trim t) = true.
Proof.
  intros H. unfold trim, trimEnd.
  now apply ascii_rev, ascii_trimStart, ascii_rev, ascii_trimStart.
Qed.

Lemma isDML_iff_occurrence query :
  isDML (containsDMLStatements query) = true <->
  exists ws nm,
    In (ws, nm) catalog /\ WholeWordOccurrence ws (normalizedQuery query).
Proof.
  split.
  - intros H.
    destruct (firstMatch dmlPatterns (normalizedQuery query)) as [p|] eqn:F.
    + assert (Fn : firstMatch dmlPatterns (normalizedQuery query) <> None)
        by congruence.
      destruct (@containsDMLStatements_detected query Fn)
        as (before & ws & nm & after & C & _ & O & _).
      exists ws, nm. split; [rewrite C; apply in_elt|exact O].
    + unfold containsDMLStatements in H. rewrite F in H. discriminate H.
  - intros (ws & nm & I & O).
    apply test_words_iff in O; [|exact (catalog_wordsOnly I)].
    destruct (@firstMatch_found dmlPatterns (normalizedQuery query)
                (signatureOf (ws, nm))) as [p Hp].
    + rewrite dmlPatterns_catalog. now apply in_map.
    + exact O.
    + unfold containsDMLStatements. now rewrite Hp.
Qed.

End CaseOfOccurrences.

(** X9. For a query made of ASCII characters in which the removal of
    comments finds nothing to delete, the classifier reports a mutating
    statement exactly when the query as received holds a whole-word
    occurrence of a signature of the catalog, letter case aside; the label
    it reports is that of the first such signature in catalog order. *)
Theorem plain_query_is_classified_by_its_own_text (q : jsString) :
  removeBlockComments (removeLineComments q) = q ->
  forallb isAscii q = true ->
  (isDML (containsDMLStatements q) = true
   <-> exists ws nm, In (ws, nm) catalog /\ WholeWordOccurrence ws q)
  /\ (forall nm,
        containsDMLStatements q = detected nm ->
        exists before ws after,
          catalog = before ++ (ws, nm) :: after
          /\ WholeWordOccurrence ws q
          /\ forall e, In e before -> ~ WholeWordOccurrence (fst e) q).
Proof.
  intros Hc Ha.
  assert (N0 : normalizedQuery q = toUpperCase (trim q))
    by (unfold normalizedQuery; now rewrite Hc).
  assert (S0 : SameText (trim q) (normalizedQuery q))
    by (rewrite N0; apply sameText_toUpperCase_ascii, ascii_trim, Ha).
  assert (K : forall ws nm,
             In (ws, nm) catalog ->
             (WholeWordOccurrence ws (normalizedQuery q)
              <-> WholeWordOccurrence ws q)).
  { intros ws nm I. pose proof (catalog_wordsOnly I) as Wf. split.
    - intros O. apply (@occurrence_trim ws Wf q).
      exact (sameText_occurrence (sameText_sym S0) O).
    - intros O. apply (@occurrence_trim ws Wf q) in O.
      exact (sameText_occurrence S0 O). }
  split.
  - rewrite isDML_iff_occurrence. split.
    + intros (ws & nm & I & O). exists ws, nm. split; [exact I|].
      now apply (K ws nm I).
    + intros (ws & nm & I & O). exists ws, nm. split; [exact I|].
      now apply (K ws nm I).
  - intros nm R.
    destruct (firstMatch dmlPatterns (normalizedQuery q)) as [p|] eqn:F.
    + assert (Fn : firstMatch dmlPatterns (normalizedQuery q) <> None)
        by congruence.
      destruct (@containsDMLStatements_detected q Fn)
        as (before & ws1 & nm1 & after & C & R1 & O1 & B).
      rewrite R1 in R. apply detected_injective in R. subst nm1.
      assert (I1 : In (ws1, nm) catalog) by (rewrite C; apply in_elt).
      exists before, ws1, after. split; [exact C|]. split.
      * now apply (K ws1 nm I1).
      * intros [ws' nm'] I' O'. apply (B _ I').
        assert (Ic : In (ws', nm') catalog)
          by (rewrite C; apply in_or_app; auto).
        now apply (K ws' nm' Ic).
    + unfold containsDMLStatements in R. rewrite F in R. discriminate R.
Qed.

Lemma plain_query_is_classified_by_its_own_text_witness :
  let q := js "select 1; Delete  From t where id = 1" in
  removeBlockComments (removeLineComments q) = q
  /\ forallb isAscii q = true
  /\ containsDMLStatements q = detected "DELETE FROM"
  /\ exists before ws after,
       catalog = before ++ (ws, "DELETE FROM"%string) :: after
       /\ WholeWordOccurrence ws q
       /\ forall e, In e before -> ~ WholeWordOccurrence (fst e) q.
Proof.
  intros q.
  assert (Hc : removeBlockComments (removeLineComments q) = q)
    by (vm_compute; reflexivity).
  assert (Ha : forallb isAscii q = true) by (vm_compute; reflexivity).
  assert (R : containsDMLStatements q = detected "DELETE FROM")
    by (vm_compute; reflexivity).
  split; [exact Hc|]. split; [exact Ha|]. split; [exact R|].
  exact (proj2 (@plain_query_is_classified_by_its_own_text q Hc Ha)
           "DELETE FROM"%string R).
Defined.

(** ** The classifier of the tool tests *)

(** X10. The copy of the classifier in [test/tools.test.ts] is weaker than
    the classifier of the server: every query it reports is reported by the
    server too, under the same label or under one of the table labels the
    copy lacks (CREATE OR REPLACE TABLE, DROP TABLE, ALTER TABLE). *)
Theorem tools_test_copy_is_weaker (q : jsString) (nm : string) :
  toolsTestContainsDMLStatements q = detected nm ->
  isDML (containsDMLStatements q) = true
  /\ (containsDMLStatements q = detected nm
      \/ containsDMLStatements q = detected "CREATE OR REPLACE TABLE"
      \/ containsDMLStatements q = detected "DROP TABLE"
      \/ containsDMLStatements q = detected "ALTER TABLE").
Proof.
  unfold toolsTestContainsDMLStatements, containsDMLStatements,
    toolsTestPatterns, dmlPatterns.
  generalize (normalizedQuery q). intros t.
  cbn [firstMatch pattern name]. intros H.
  repeat match goal with
  | |- context [if test ?p t then _ else _] =>
      destruct (test p t);
      [cbv iota in H; cbv iota; split; [reflexivity|];
       first [left; exact H
             |right; left; reflexivity
             |right; right; left; reflexivity
             |right; right; right; reflexivity]
      |cbv iota in H; try discriminate H]
  end.
Qed.

Lemma tools_test_copy_is_weaker_witness :
  toolsTestContainsDMLStatements
    (js "DROP TABLE a; INSERT INTO b VALUES (1)")
  = detected "INSERT INTO"
  /\ containsDMLStatements (js "DROP TABLE a; INSERT INTO b VALUES (1)")
     = detected "DROP TABLE"
  /\ isDML (containsDMLStatements
              (js "DROP TABLE a; INSERT INTO b VALUES (1)")) = true.
Proof.
  assert (H : toolsTestContainsDMLStatements
                (js "DROP TABLE a; INSERT INTO b VALUES (1)")
              = detected "INSERT INTO") by (vm_compute; reflexivity).
  split; [exact H|]. split; [vm_compute; reflexivity|].
  exact (proj1 (tools_test_copy_is_weaker _ H)).
Defined.

(** ** The size figures *)

Section SizeFigures.

Lemma toNumber_exact n : (n < 2 ^ 53)%Z -> toNumber n = n.
Proof. intros H. unfold toNumber. apply Z.ltb_lt in H. now rewrite H. Qed.

Lemma toNumber_large n : (2 ^ 53 <= n)%Z -> (2 ^ 52 <= toNumber n)%Z.
Proof.
  intros H. unfold toNumber.
  destruct (n <? 2 ^ 53)%Z eqn:L; [apply Z.ltb_lt in L; lia|]. clear L.
  assert (P : (0 < n)%Z) by (change (2 ^ 53)%Z with 9007199254740992%Z in H; lia).
  pose proof (Z.log2_spec n P) as [Lo _].
  assert (E : (53 <= Z.log2 n)%Z).
  { change 53%Z with (Z.log2 (2 ^ 53)). now apply Z.log2_le_mono. }
  set (e := (Z.log2 n - 52)%Z) in *.
  assert (Pe : (0 < 2 ^ e)%Z) by (apply Z.pow_pos_nonneg; lia).
  assert (Q : (2 ^ 52 <= n / 2 ^ e)%Z).
  { apply Z.div_le_lower_bound; [exact Pe|].
    rewrite Z.mul_comm, <- Z.pow_add_r by lia.
    replace (52 + e)%Z with (Z.log2 n) by (subst e; lia). exact Lo. }
  assert (B : (2 ^ 52 <= n / 2 ^ e * 2 ^ e)%Z) by nia.
  assert (B' : (2 ^ 52 <= (n / 2 ^ e + 1) * 2 ^ e)%Z) by nia.
  cbv zeta.
  destruct (n mod 2 ^ e <? 2 ^ (e - 1))%Z; [exact B|].
  destruct (2 ^ (e - 1) <? n mod 2 ^ e)%Z; [exact B'|].
  destruct (Z.even (n / 2 ^ e)); [exact B|exact B'].
Qed.

Lemma fixedUnits_mono f k m m' :
  (0 <= f)%Z -> (0 <= k)%Z -> (m <= m')%Z ->
  (fixedUnits f m k <= fixedUnits f m' k)%Z.
Proof.
  intros Hf Hk H. unfold fixedUnits.
  assert (P : (0 < 2 ^ (k + 1))%Z) by (apply Z.pow_pos_nonneg; lia).
  assert (T : (0 <= 10 ^ f)%Z) by (apply Z.pow_nonneg; lia).
  apply Z.div_le_mono; [exact P|]. nia.
Qed.

Lemma two_digits r :
  (0 <= r < 100)%Z -> List.length (padLeft 2 (decimal r)) = 2%nat.
Proof.
  intros H.
  assert (A : forallb
                (fun i => Nat.eqb
                            (List.length (padLeft 2 (decimal (Z.of_nat i))))
                            2)
                (seq 0 100) = true) by (vm_compute; reflexivity).
  rewrite forallb_forall in A.
  specialize (A (Z.to_nat r)). rewrite Z2Nat.id in A by lia.
  apply Nat.eqb_eq, A, in_seq. lia.
Qed.

End SizeFigures.

(** X11. For a byte count [n] below 2^53, the gigabyte figure in the
    payloads is [n / 2^30] rounded to the nearest hundredth, a half going
    up: with [h] the hundredths shown, [2^31 * h - 200 * n] lies between
    [-2^30] (excluded) and [2^30].  It is written as the integer part, a
    point and exactly two digits. *)
Theorem gigabytes_shown_are_rounded (n : Z) :
  (0 <= n < 2 ^ 53)%Z ->
  let h := fixedUnits 2 n 30 in
  renderPiece (GigabytesFixed2 n)
  = decimal (h / 100) ++ [46%N] ++ padLeft 2 (decimal (h mod 100))
  /\ (- 2 ^ 30 < 2 ^ 31 * h - 200 * n <= 2 ^ 30)%Z
  /\ List.length (padLeft 2 (decimal (h mod 100))) = 2%nat.
Proof.
  intros [H0 H1] h. split; [|split].
  - unfold renderPiece, signed.
    destruct (n <? 0)%Z eqn:S; [apply Z.ltb_lt in S; lia|].
    rewrite Z.abs_eq by exact H0. rewrite toNumber_exact by exact H1.
    reflexivity.
  - subst h. unfold fixedUnits.
    change (10 ^ 2)%Z with 100%Z. change (2 ^ 30)%Z with 1073741824%Z.
    change (2 ^ (30 + 1))%Z with 2147483648%Z.
    change (2 ^ 31)%Z with 2147483648%Z.
    pose proof (Z.div_mod (2 * n * 100 + 1073741824) 2147483648) as D.
    pose proof (Z.mod_pos_bound (2 * n * 100 + 1073741824) 2147483648) as M.
    lia.
  - apply two_digits. apply Z.mod_pos_bound. lia.
Qed.

Lemma gigabytes_shown_are_rounded_witness :
  (0 <= 1610612736 < 2 ^ 53)%Z
  /\ renderPiece (GigabytesFixed2 1610612736) = js "1.50"
  /\ (- 2 ^ 30 < 2 ^ 31 * fixedUnits 2 1610612736 30 - 200 * 1610612736
      <= 2 ^ 30)%Z.
Proof.
  assert (H : (0 <= 1610612736 < 2 ^ 53)%Z)
    by (change (2 ^ 53)%Z with 9007199254740992%Z; lia).
  split; [exact H|].
  destruct (gigabytes_shown_are_rounded H) as (R & B & _).
  split; [rewrite R; vm_compute; reflexivity|exact B].
Defined.

(** X12. The figure shown agrees with the size gate up to rounding: below
    the limit it is at most 1024.00 GB, at or above the limit at least
    1024.00 GB.  For the 5,368,709 byte counts just below the limit the
    report of [dry_run_query] reads 1024.00 GB (1.0000 TB) and says that
    this is below the 1 TB limit. *)
Theorem size_shown_agrees_with_limit
    (bigquery : BigQuery) (q : jsString) (projectId : option jsString)
    (history : list Event) (job : Job) :
  isEmpty q = false ->
  createQueryJob bigquery history (dryRunOptions q projectId) = inr job ->
  (0 <= bytesOf job < 2 ^ 63)%Z ->
  (belowLimit (bytesOf job) = true ->
   (fixedUnits 2 (toNumber (bytesOf job)) 30 <= 102400)%Z)
  /\ (belowLimit (bytesOf job) = false ->
      (102400 <= fixedUnits 2 (toNumber (bytesOf job)) 30)%Z)
  /\ ((1099506259067 <= bytesOf job < 1099511627776)%Z ->
      exists size msg,
        fst (dry_run_query bigquery q projectId history)
        = Returned (DryRunReport (bytesOf job) size true msg)
        /\ renderText size = js "1024.00 GB (1.0000 TB)"
        /\ renderText msg
           = js "Dry run successful. Query will process 1024.00 GB, which is below the 1 TB limit.").
Proof.
  intros E J [H0 H1]. unfold belowLimit, SIZE_LIMIT_BYTES.
  split; [|split].
  - intros B. apply Z.ltb_lt in B.
    rewrite toNumber_exact
      by (change (2 ^ 53)%Z with 9007199254740992%Z; lia).
    change 102400%Z with (fixedUnits 2 1099511627775 30).
    apply fixedUnits_mono; lia.
  - intros B. apply Z.ltb_ge in B.
    change 102400%Z with (fixedUnits 2 1099511627776 30).
    apply fixedUnits_mono; try lia.
    destruct (Z.lt_ge_cases (bytesOf job) (2 ^ 53)) as [L|L].
    + now rewrite toNumber_exact.
    + pose proof (toNumber_large L) as T.
      change (2 ^ 52)%Z with 4503599627370496%Z in T. lia.
  - intros [L U]. rewrite dry_run_query_cases by exact E. rewrite J.
    unfold belowLimit, SIZE_LIMIT_BYTES.
    assert (B : (bytesOf job <? 1099511627776)%Z = true)
      by now apply Z.ltb_lt.
    rewrite B. do 2 eexists. split; [reflexivity|].
    assert (G : renderPiece (GigabytesFixed2 (bytesOf job)) = js "1024.00").
    { unfold renderPiece, signed.
      destruct (bytesOf job <? 0)%Z eqn:S; [apply Z.ltb_lt in S; lia|].
      rewrite Z.abs_eq by exact H0.
      rewrite toNumber_exact
        by (change (2 ^ 53)%Z with 9007199254740992%Z; lia).
      unfold toFixed.
      assert (F : fixedUnits 2 (bytesOf job) 30 = 102400%Z).
      { unfold fixedUnits. change (10 ^ 2)%Z with 100%Z.
        change (2 ^ 30)%Z with 1073741824%Z.
        change (2 ^ (30 + 1))%Z with 2147483648%Z.
        symmetry. apply (Z.div_unique _ _ _
          (2 * bytesOf job * 100 + 1073741824 - 102400 * 2147483648)); lia. }
      rewrite F. vm_compute. reflexivity. }
    assert (T : renderPiece (TerabytesFixed4 (bytesOf job)) = js "1.0000").
    { unfold renderPiece, signed.
      destruct (bytesOf job <? 0)%Z eqn:S; [apply Z.ltb_lt in S; lia|].
      rewrite Z.abs_eq by exact H0.
      rewrite toNumber_exact
        by (change (2 ^ 53)%Z with 9007199254740992%Z; lia).
      unfold toFixed.
      assert (F : fixedUnits 4 (bytesOf job) 40 = 10000%Z).
      { unfold fixedUnits. change (10 ^ 4)%Z with 10000%Z.
        change (2 ^ 40)%Z with 1099511627776%Z.
        change (2 ^ (40 + 1))%Z with 2199023255552%Z.
        symmetry. apply (Z.div_unique _ _ _
          (2 * bytesOf job * 10000 + 1099511627776 - 10000 * 2199023255552));
          lia. }
      rewrite F. vm_compute. reflexivity. }
    unfold renderText. cbn [flat_map]. rewrite G, T. split; reflexivity.
Qed.

Lemma size_shown_agrees_with_limit_witness :
  isEmpty (js "SELECT * FROM t") = false
  /\ (0 <= bytesOf (jobOf 1099511627775) < 2 ^ 63)%Z
  /\ (1099506259067 <= bytesOf (jobOf 1099511627775) < 1099511627776)%Z
  /\ exists size msg,
       fst (dry_run_query (steadyClient 1099511627775 []) (js "SELECT * FROM t")
              None [])
       = Returned (DryRunReport (bytesOf (jobOf 1099511627775)) size true msg)
       /\ renderText size = js "1024.00 GB (1.0000 TB)"
       /\ renderText msg
          = js "Dry run successful. Query will process 1024.00 GB, which is below the 1 TB limit.".
Proof.
  assert (E : isEmpty (js "SELECT * FROM t") = false) by reflexivity.
  assert (R : (0 <= bytesOf (jobOf 1099511627775) < 2 ^ 63)%Z)
    by (change (bytesOf (jobOf 1099511627775)) with 1099511627775%Z;
        change (2 ^ 63)%Z with 9223372036854775808%Z; lia).
  assert (W : (1099506259067 <= bytesOf (jobOf 1099511627775)
               < 1099511627776)%Z)
    by (change (bytesOf (jobOf 1099511627775)) with 1099511627775%Z; lia).
  split; [exact E|]. split; [exact R|]. split; [exact W|].
  exact (proj2 (proj2 (@size_shown_agrees_with_limit
                         (steadyClient 1099511627775 [])
                         (js "SELECT * FROM t") None [] _ E eq_refl R)) W).
Defined.

(** ** The two tools together *)

(** X13. Both tools send the same dry-run request, so for a query that is
    not empty and not classified as mutating, and with the same history,
    what [dry_run_query] reports is what [run_query_with_validation] acts
    on: a failure of the dry run is returned by both with the same error; a
    report that is not below the limit means the size rejection with the
    same byte count and no execution; a report below the limit means that
    the query is executed, and its rows returned if the execution
    succeeds. *)
Theorem estimate_predicts_execution
    (bigquery : BigQuery) (q : jsString) (projectId : option jsString)
    (maxResults : option Z) (history : list Event) :
  isEmpty q = false ->
  isDML (containsDMLStatements q) = false ->
  let estimate := fst (dry_run_query bigquery q projectId history) in
  let run :=
    run_query_with_validation bigquery q projectId maxResults history in
  (forall error, estimate = Returned (Failure error) ->
     fst run = Returned (Failure error) /\ filter isQuery (snd run) = [])
  /\ (forall n size msg,
        estimate = Returned (DryRunReport n size false msg) ->
        exists size' error,
          run = (Returned (SizeExceeded n size' error),
                 [CreateQueryJob (dryRunOptions q projectId)]))
  /\ (forall n size msg,
        estimate = Returned (DryRunReport n size true msg) ->
        In (Query (runOptions q projectId (rowCap maxResults))) (snd run)
        /\ forall rows,
             query bigquery
               (history ++ [CreateQueryJob (dryRunOptions q projectId)])
               (runOptions q projectId (rowCap maxResults)) = inr rows ->
             fst run
             = Returned (Executed n [GigabytesFixed2 n; Lit (js " GB")]
                           (List.length rows) rows)).
Proof.
  intros E D estimate run. subst estimate run.
  rewrite dry_run_query_cases by exact E.
  rewrite run_query_with_validation_cases by assumption.
  destruct (createQueryJob bigquery history (dryRunOptions q projectId))
    as [e|job].
  - cbn [fst snd]. split; [|split].
    + intros error [= <-]. split; reflexivity.
    + intros n size msg H. discriminate H.
    + intros n size msg H. discriminate H.
  - cbn [fst]. destruct (belowLimit (bytesOf job)); split; [|split| |split].
    + intros error H. discriminate H.
    + intros n size msg H. discriminate H.
    + intros n size msg [= <- _ _]. split.
      * destruct (query bigquery _ _); cbn [snd]; simpl; auto.
      * intros rows ->. reflexivity.
    + intros error H. discriminate H.
    + intros n size msg [= <- _ _]. eauto.
    + intros n size msg H. discriminate H.
Qed.

Lemma estimate_predicts_execution_witness :
  isEmpty (js "SELECT * FROM t") = false
  /\ isDML (containsDMLStatements (js "SELECT * FROM t")) = false
  /\ (exists size msg,
        fst (dry_run_query (steadyClient 2000000000000 twoRows)
               (js "SELECT * FROM t") None [])
        = Returned (DryRunReport 2000000000000 size false msg))
  /\ exists size' error,
       run_query_with_validation (steadyClient 2000000000000 twoRows)
         (js "SELECT * FROM t") None None []
       = (Returned (SizeExceeded 2000000000000 size' error),
          [CreateQueryJob (dryRunOptions (js "SELECT * FROM t") None)]).
Proof.
  assert (E : isEmpty (js "SELECT * FROM t") = false) by reflexivity.
  assert (D : isDML (containsDMLStatements (js "SELECT * FROM t")) = false)
    by (vm_compute; reflexivity).
  split; [exact E|]. split; [exact D|].
  split; [do 2 eexists; vm_compute; reflexivity|].
  exact (proj1 (proj2 (@estimate_predicts_execution
                         (steadyClient 2000000000000 twoRows)
                         (js "SELECT * FROM t") None None [] E D))
           _ _ _ eq_refl).
Defined.
